(** * smol-slicer: the load-balancing decision engine of [src/slicer.ts]

    A shallow embedding of the engine and of the properties its
    specification states about it.

    Conventions of the embedding.
    - A JavaScript [number] is a rational number ([Q]): finite values with
      exact arithmetic.  [NaN], the infinities and binary64 rounding are
      outside the model; decimal literals of the source ([0.1], [0.5],
      [0.30000000000000004]) are read as the decimal fractions they spell.
      The statements proved compare scores, follow the source's operations
      in the source's order, or use an identity that rounding keeps
      ([x * 1], [x / 2 + x / 2], a sum of zeros); none rests on
      reassociating, distributing or cancelling rounded operations.
    - A JavaScript [string] is its sequence of UTF-16 code units
      ([list N]); [str] writes one from an ASCII literal.
    - The array [servers] is passed by reference and sorted in place on
      the split path, so [splitKeyRange] and [slicerLoadBalancer] return,
      next to their result, the contents of that array after the call.
      The [ServerReport] objects themselves are never assigned to.
    - A [TypeError] that the source can raise is an explicit outcome. *)

From Stdlib Require Import QArith Qround Lqa ZArith NArith Lia.
From Stdlib Require Import List Bool Ascii String Permutation Sorted.
Import ListNotations.

Set Implicit Arguments.
Local Open Scope Q_scope.

(** ** JavaScript primitives used by the engine *)

Module JS.

(** A string, as its UTF-16 code units. *)
Definition string := list N.

(** Code units of an ASCII literal. *)
Fixpoint str (s : String.string) : string :=
  match s with
  | EmptyString => []
  | String c s' => N_of_ascii c :: str s'
  end.

(** Every code unit fits in 16 bits. *)
Definition wf_string (s : string) : Prop := Forall (fun c => (c < 65536)%N) s.

(** [s.charCodeAt(0)]: the first code unit, or [NaN] ([None]) when [s] is
    empty. *)
Definition charCodeAt0 (s : string) : option N :=
  match s with
  | [] => None
  | c :: _ => Some c
  end.

(** [String.fromCharCode(n)] for an integer [n >= 0]: the one-unit string
    of [ToUint16 n]. *)
Definition fromCharCode (n : N) : string := [(n mod 65536)%N].

(** [String.fromCharCode(NaN)]: [ToUint16 NaN] is [0]. *)
Definition fromCharCode_NaN : string := [0%N].

(** [a < b] on strings: lexicographic on code units, a proper prefix
    being smaller. *)
Fixpoint ltb (a b : string) : bool :=
  match a, b with
  | _, [] => false
  | [], _ :: _ => true
  | x :: a', y :: b' => (x <? y)%N || ((x =? y)%N && ltb a' b')
  end.

(** [a <= b] on strings. *)
Definition leb (a b : string) : bool := negb (ltb b a).

(** [x || y] where [x] is a string or [undefined] ([None]) and [y] a
    string: [undefined] and the empty string are falsy. *)
Definition or (x : option string) (y : string) : string :=
  match x with
  | Some (c :: s) => c :: s
  | Some [] => y
  | None => y
  end.

(** [x < y] on numbers. *)
Definition lt (x y : Q) : bool := negb (Qle_bool y x).

(** [x > y] on numbers. *)
Definition gt (x y : Q) : bool := lt y x.

(** [x <= y] on numbers. *)
Definition le (x y : Q) : bool := Qle_bool x y.

(** The result of a call: a value, or a thrown [TypeError]. *)
Inductive outcome (A : Type) : Type :=
| Returns (a : A)
| TypeError.
Arguments TypeError {A}.

(** [Array.prototype.sort(cmp)]: the sort is stable, and for a consistent
    comparator its result is the stable ordering by [cmp].  [insert]
    places [x], which preceded every element of [l] in the array, after
    the elements that compare strictly below it. *)
Section Sort.
Variable A : Type.
Variable cmp : A -> A -> Q.

Fixpoint insert (x : A) (l : list A) : list A :=
  match l with
  | [] => [x]
  | y :: l' => if lt (cmp y x) 0 then y :: insert x l' else x :: y :: l'
  end.

Fixpoint sort (l : list A) : list A :=
  match l with
  | [] => []
  | x :: l' => insert x (sort l')
  end.
End Sort.

End JS.

Import JS (outcome, Returns, TypeError).

(** ** Data model *)

Record KeyRange : Type := {
  start_key : JS.string;
  end_key : JS.string;
  data_access_frequency : Q;
  storage_utilization : Q;
  request_processing_load : Q;
  memory_usage : Q
}.

Record ServerReport : Type := {
  instance_id : JS.string;
  total_storage_utilization : Q;
  total_request_processing_load : Q;
  total_data_access_frequency : Q;
  total_memory_usage : Q;
  max_cpu_capacity : Q;
  max_memory_capacity : Q;
  key_ranges : list KeyRange
}.

Record Weights : Type := {
  cpuWeight : Q;
  memoryWeight : Q;
  storageWeight : Q;
  accessFrequencyWeight : Q;
  migrationPenalty : Q
}.

(** [KeyRange & { destination_instance?: string }], as [splitKeyRange]
    builds it: the destination is always set there. *)
Record RoutedKeyRange : Type := {
  range :> KeyRange;
  destination_instance : JS.string
}.

Module MigrationPlan.
Record t : Type := {
  start_key : JS.string;
  end_key : JS.string;
  source_instance : JS.string;
  destination_instance : JS.string
}.
End MigrationPlan.

(** The module-level default [weights]. *)
Definition weights : Weights := {|
  cpuWeight := 0.5;
  memoryWeight := 0.5;
  storageWeight := 0.30000000000000004;
  accessFrequencyWeight := 0.1;
  migrationPenalty := 1
|}.

(** ** The fixed-weight variant: its two scorers *)

Module Fixed.

Definition calculateCombinedLoad (server : ServerReport) : Q :=
  total_request_processing_load server +
  total_storage_utilization server * 0.5 +
  total_data_access_frequency server * 0.2 +
  total_memory_usage server * 0.3.

Definition calculateKeyRangeLoad (keyRange : KeyRange) : Q :=
  request_processing_load keyRange +
  storage_utilization keyRange * 0.5 +
  data_access_frequency keyRange * 0.2 +
  memory_usage keyRange * 0.3.

(** The weights this variant has built in ([cpu] is taken as it is). *)
Definition weights : Weights := {|
  cpuWeight := 1;
  memoryWeight := 0.3;
  storageWeight := 0.5;
  accessFrequencyWeight := 0.2;
  migrationPenalty := 1
|}.

End Fixed.

(** ** The engine (weight-parameterised variant) *)

Definition calculateCombinedLoad (server : ServerReport) (weights : Weights) : Q :=
  total_request_processing_load server * cpuWeight weights +
  total_storage_utilization server * storageWeight weights +
  total_data_access_frequency server * accessFrequencyWeight weights +
  total_memory_usage server * memoryWeight weights.

Definition calculateKeyRangeLoad (keyRange : KeyRange) (weights : Weights) : Q :=
  request_processing_load keyRange * cpuWeight weights +
  storage_utilization keyRange * storageWeight weights +
  data_access_frequency keyRange * accessFrequencyWeight weights +
  memory_usage keyRange * memoryWeight weights.

Definition shouldSplitKeyRange (keyRange : KeyRange) (server : ServerReport) : bool :=
  let projectedCpuUsage :=
    total_request_processing_load server + request_processing_load keyRange in
  let projectedMemoryUsage :=
    total_memory_usage server + memory_usage keyRange in
  JS.gt projectedCpuUsage (max_cpu_capacity server) ||
  JS.gt projectedMemoryUsage (max_memory_capacity server).

Definition canMoveKeyRange (keyRange : KeyRange) (server : ServerReport) : bool :=
  let projectedCpuUsage :=
    total_request_processing_load server + request_processing_load keyRange in
  let projectedMemoryUsage :=
    total_memory_usage server + memory_usage keyRange in
  JS.le projectedCpuUsage (max_cpu_capacity server) &&
  JS.le projectedMemoryUsage (max_memory_capacity server).

(** [Math.floor((startChar + endChar) / 2)] on two code units is the
    quotient of their sum by two; if either key is empty the sum is [NaN]. *)
Definition calculateMidKey (startKey endKey : JS.string) : JS.string :=
  match JS.charCodeAt0 startKey, JS.charCodeAt0 endKey with
  | Some startChar, Some endChar =>
      JS.fromCharCode ((startChar + endChar) / 2)%N
  | _, _ => JS.fromCharCode_NaN
  end.

(** The comparator handed to [sort]. *)
Definition byCombinedLoad (weights : Weights) (a b : ServerReport) : Q :=
  calculateCombinedLoad a weights - calculateCombinedLoad b weights.

(** [availableServers] is the caller's array: the second component of the
    result is its contents after the in-place sort.  Reading
    [sortedServers[0].instance_id] of an empty array throws. *)
Definition splitKeyRange (keyRange : KeyRange)
    (availableServers : list ServerReport) (weights : Weights)
  : outcome (RoutedKeyRange * RoutedKeyRange) * list ServerReport :=
  let midKey := calculateMidKey (start_key keyRange) (end_key keyRange) in
  let sortedServers := JS.sort (byCombinedLoad weights) availableServers in
  match nth_error sortedServers 0 with
  | None => (TypeError, sortedServers)
  | Some sorted0 =>
      let range1 := {|
        range := {|
          start_key := start_key keyRange;
          end_key := midKey;
          data_access_frequency := data_access_frequency keyRange / 2;
          storage_utilization := storage_utilization keyRange / 2;
          request_processing_load := request_processing_load keyRange / 2;
          memory_usage := memory_usage keyRange / 2 |};
        destination_instance := instance_id sorted0 |} in
      let range2 := {|
        range := {|
          start_key := midKey;
          end_key := end_key keyRange;
          data_access_frequency := data_access_frequency keyRange / 2;
          storage_utilization := storage_utilization keyRange / 2;
          request_processing_load := request_processing_load keyRange / 2;
          memory_usage := memory_usage keyRange / 2 |};
        destination_instance :=
          JS.or (option_map instance_id (nth_error sortedServers 1))
                (instance_id sorted0) |} in
      (Returns (range1, range2), sortedServers)
  end.

Definition createMigrationPlan (keyRange : KeyRange)
    (source destination : JS.string) : MigrationPlan.t := {|
  MigrationPlan.start_key := start_key keyRange;
  MigrationPlan.end_key := end_key keyRange;
  MigrationPlan.source_instance := source;
  MigrationPlan.destination_instance := destination
|}.

(** One iteration of the [for (const server of servers)] loop over the
    pair [(mostLoadedServer, leastLoadedServer)]; [None] is [null]. *)
Definition selectStep (weights : Weights)
    (best : option ServerReport * option ServerReport) (server : ServerReport)
  : option ServerReport * option ServerReport :=
  let (mostLoadedServer, leastLoadedServer) := best in
  (match mostLoadedServer with
   | None => Some server
   | Some most =>
       if JS.gt (calculateCombinedLoad server weights)
                (calculateCombinedLoad most weights)
       then Some server else Some most
   end,
   match leastLoadedServer with
   | None => Some server
   | Some least =>
       if JS.lt (calculateCombinedLoad server weights)
                (calculateCombinedLoad least weights)
       then Some server else Some least
   end).

(** The loop, from [(null, null)]. *)
Definition selectMostAndLeast (servers : list ServerReport) (weights : Weights)
  : option ServerReport * option ServerReport :=
  fold_left (selectStep weights) servers (None, None).

(** [key_ranges.reduce(f, key_ranges[0])]: over an empty array it returns
    the initial value, [undefined] ([None]). *)
Definition selectKeyRangeToMove (key_ranges : list KeyRange) (weights : Weights)
  : option KeyRange :=
  match nth_error key_ranges 0 with
  | None => None
  | Some first =>
      Some (fold_left
              (fun prev current =>
                 if JS.gt (calculateKeyRangeLoad current weights)
                          (calculateKeyRangeLoad prev weights)
                 then current else prev)
              key_ranges first)
  end.

(** The imbalance test of step 2. *)
Definition imbalanced (mostLoadedServer leastLoadedServer : ServerReport)
    (weights : Weights) : bool :=
  let loadDifference :=
    calculateCombinedLoad mostLoadedServer weights -
    calculateCombinedLoad leastLoadedServer weights in
  JS.gt loadDifference (0.1 * calculateCombinedLoad mostLoadedServer weights).

(** The result and the contents of [servers] after the call.  With
    [keyRangeToMove] undefined, [shouldSplitKeyRange] reads a property of
    [undefined] and throws. *)
Definition slicerLoadBalancer (servers : list ServerReport) (weights : Weights)
  : outcome (list MigrationPlan.t) * list ServerReport :=
  match selectMostAndLeast servers weights with
  | (Some mostLoadedServer, Some leastLoadedServer) =>
      if imbalanced mostLoadedServer leastLoadedServer weights then
        match selectKeyRangeToMove (key_ranges mostLoadedServer) weights with
        | None => (TypeError, servers)
        | Some keyRangeToMove =>
            if shouldSplitKeyRange keyRangeToMove leastLoadedServer then
              match splitKeyRange keyRangeToMove servers weights with
              | (Returns (range1, range2), servers') =>
                  (Returns
                     [createMigrationPlan range1
                        (instance_id mostLoadedServer)
                        (destination_instance range1);
                      createMigrationPlan range2
                        (instance_id mostLoadedServer)
                        (destination_instance range2)],
                   servers')
              | (TypeError, servers') => (TypeError, servers')
              end
            else if canMoveKeyRange keyRangeToMove leastLoadedServer then
              (Returns
                 [createMigrationPlan keyRangeToMove
                    (instance_id mostLoadedServer)
                    (instance_id leastLoadedServer)],
               servers)
            else (Returns [], servers)
        end
      else (Returns [], servers)
  | _ => (Returns [], servers)
  end.

(** ** The reference fixture of [src/slicer.test.ts] *)

Module Fixture.

Definition mkRange (s e : String.string) (access storage cpu memory : Q) : KeyRange := {|
  start_key := JS.str s;
  end_key := JS.str e;
  data_access_frequency := access;
  storage_utilization := storage;
  request_processing_load := cpu;
  memory_usage := memory
|}.

Definition server1234 : ServerReport := {|
  instance_id := JS.str "server-1234";
  total_storage_utilization := 800;
  total_request_processing_load := 4450;
  total_data_access_frequency := 15500;
  total_memory_usage := 2500;
  max_cpu_capacity := 5000;
  max_memory_capacity := 3000;
  key_ranges := [
    mkRange "a000" "a999" 12000 500 3500 1500;
    mkRange "b000" "b999" 3000 200 800 500;
    mkRange "c000" "c999" 500 100 150 500 ]
|}.

Definition server5678 : ServerReport := {|
  instance_id := JS.str "server-5678";
  total_storage_utilization := 400;
  total_request_processing_load := 2000;
  total_data_access_frequency := 8000;
  total_memory_usage := 1000;
  max_cpu_capacity := 4000;
  max_memory_capacity := 2000;
  key_ranges := [
    mkRange "d000" "d999" 4000 150 1200 300;
    mkRange "e000" "e999" 2000 100 600 200;
    mkRange "f000" "f999" 2000 150 200 500 ]
|}.

Definition reports : list ServerReport := [server1234; server5678].

Definition mkPlan (s e src dst : String.string) : MigrationPlan.t := {|
  MigrationPlan.start_key := JS.str s;
  MigrationPlan.end_key := JS.str e;
  MigrationPlan.source_instance := JS.str src;
  MigrationPlan.destination_instance := JS.str dst
|}.

(** The hot range of [server1234]. *)
Definition hotRange : KeyRange := mkRange "a000" "a999" 12000 500 3500 1500.

(** A range whose boundaries are single characters two code points apart. *)
Definition wideRange : KeyRange := mkRange "a" "c" 12000 500 3500 1500.

(** [server1234] under another identifier. *)
Definition renamed (id : String.string) (s : ServerReport) : ServerReport := {|
  instance_id := JS.str id;
  total_storage_utilization := total_storage_utilization s;
  total_request_processing_load := total_request_processing_load s;
  total_data_access_frequency := total_data_access_frequency s;
  total_memory_usage := total_memory_usage s;
  max_cpu_capacity := max_cpu_capacity s;
  max_memory_capacity := max_memory_capacity s;
  key_ranges := key_ranges s
|}.

(** A report outside the data model: a negative processing load. *)
Definition negativeServer : ServerReport := {|
  instance_id := JS.str "server-0000";
  total_storage_utilization := 0;
  total_request_processing_load := -10;
  total_data_access_frequency := 0;
  total_memory_usage := 0;
  max_cpu_capacity := 4000;
  max_memory_capacity := 2000;
  key_ranges := [ mkRange "a" "c" 0 0 (-10) 0 ]
|}.

End Fixture.

(** ** Specification-side notions *)

(** The scorer as the specification words it: one weighted sum over a
    four-metric vector. *)
Definition spec_score (cpu storage access memory : Q) (weights : Weights) : Q :=
  cpu * cpuWeight weights + storage * storageWeight weights +
  access * accessFrequencyWeight weights + memory * memoryWeight weights.

(** Data-model invariants: weights and usage totals are non-negative,
    an instance identifier is not the empty string. *)
Definition wf_weights (w : Weights) : Prop :=
  0 <= cpuWeight w /\ 0 <= memoryWeight w /\
  0 <= storageWeight w /\ 0 <= accessFrequencyWeight w.

Definition wf_server (s : ServerReport) : Prop :=
  0 <= total_storage_utilization s /\ 0 <= total_request_processing_load s /\
  0 <= total_data_access_frequency s /\ 0 <= total_memory_usage s.

Definition wf_instance_id (s : ServerReport) : Prop := instance_id s <> [].

(** [m] is the first element of [l] with the greatest score. *)
Definition first_max (f : ServerReport -> Q) (l : list ServerReport)
    (m : ServerReport) : Prop :=
  exists l1 l2, l = l1 ++ m :: l2 /\
    (forall x, In x l1 -> f x < f m) /\ (forall x, In x l2 -> f x <= f m).

(** [m] is the first element of [l] with the least score. *)
Definition first_min (f : ServerReport -> Q) (l : list ServerReport)
    (m : ServerReport) : Prop :=
  exists l1 l2, l = l1 ++ m :: l2 /\
    (forall x, In x l1 -> f m < f x) /\ (forall x, In x l2 -> f m <= f x).

(** The key interval [[s, e)] and the key interval [[s, e]]. *)
Definition in_half_open (s e x : JS.string) : Prop :=
  JS.leb s x = true /\ JS.ltb x e = true.

Definition in_closed (s e x : JS.string) : Prop :=
  JS.leb s x = true /\ JS.leb x e = true.

(** The two halves of a split of [k], read as the key intervals
    [[start_key, end_key)] and [[start_key, end_key]], have the interval of
    [k] as their union. *)
Definition split_unions_back (k range1 range2 : KeyRange) : Prop :=
  forall x,
    in_half_open (start_key range1) (end_key range1) x \/
    in_closed (start_key range2) (end_key range2) x <->
    in_closed (start_key k) (end_key k) x.

(** The four usage metrics of [half] are those of [k] divided by two. *)
Definition halved_metrics (k half : KeyRange) : Prop :=
  data_access_frequency half = data_access_frequency k / 2 /\
  storage_utilization half = storage_utilization k / 2 /\
  request_processing_load half = request_processing_load k / 2 /\
  memory_usage half = memory_usage k / 2.

(** The paths through [slicerLoadBalancer], each with the result and the
    final contents of [servers] it produces. *)
Inductive engine_path (servers : list ServerReport) (w : Weights)
  : outcome (list MigrationPlan.t) * list ServerReport -> Prop :=
| PathEmpty :
    servers = [] ->
    engine_path servers w (Returns [], servers)
| PathBalanced (most least : ServerReport) :
    selectMostAndLeast servers w = (Some most, Some least) ->
    imbalanced most least w = false ->
    engine_path servers w (Returns [], servers)
| PathNoRange (most least : ServerReport) :
    selectMostAndLeast servers w = (Some most, Some least) ->
    imbalanced most least w = true ->
    key_ranges most = [] ->
    engine_path servers w (TypeError, servers)
| PathSplit (most least : ServerReport) (k : KeyRange)
    (range1 range2 : RoutedKeyRange) :
    selectMostAndLeast servers w = (Some most, Some least) ->
    imbalanced most least w = true ->
    selectKeyRangeToMove (key_ranges most) w = Some k ->
    shouldSplitKeyRange k least = true ->
    splitKeyRange k servers w =
      (Returns (range1, range2), JS.sort (byCombinedLoad w) servers) ->
    engine_path servers w
      (Returns [createMigrationPlan range1 (instance_id most)
                  (destination_instance range1);
                createMigrationPlan range2 (instance_id most)
                  (destination_instance range2)],
       JS.sort (byCombinedLoad w) servers)
| PathMove (most least : ServerReport) (k : KeyRange) :
    selectMostAndLeast servers w = (Some most, Some least) ->
    imbalanced most least w = true ->
    selectKeyRangeToMove (key_ranges most) w = Some k ->
    shouldSplitKeyRange k least = false ->
    canMoveKeyRange k least = true ->
    engine_path servers w
      (Returns [createMigrationPlan k (instance_id most) (instance_id least)],
       servers).

(** ** The fixed-weight variant: the engine

    [shouldSplitKeyRange], [canMoveKeyRange], [calculateMidKey] and
    [createMigrationPlan] read, word for word, as in the parameterised
    variant and are shared with it. *)

Module FixedEngine.

(** The comparator handed to [sort]. *)
Definition byCombinedLoad (a b : ServerReport) : Q :=
  Fixed.calculateCombinedLoad a - Fixed.calculateCombinedLoad b.

Definition splitKeyRange (keyRange : KeyRange)
    (availableServers : list ServerReport)
  : outcome (RoutedKeyRange * RoutedKeyRange) * list ServerReport :=
  let midKey := calculateMidKey (start_key keyRange) (end_key keyRange) in
  let sortedServers := JS.sort byCombinedLoad availableServers in
  match nth_error sortedServers 0 with
  | None => (TypeError, sortedServers)
  | Some sorted0 =>
      let range1 := {|
        range := {|
          start_key := start_key keyRange;
          end_key := midKey;
          data_access_frequency := data_access_frequency keyRange / 2;
          storage_utilization := storage_utilization keyRange / 2;
          request_processing_load := request_processing_load keyRange / 2;
          memory_usage := memory_usage keyRange / 2 |};
        destination_instance := instance_id sorted0 |} in
      let range2 := {|
        range := {|
          start_key := midKey;
          end_key := end_key keyRange;
          data_access_frequency := data_access_frequency keyRange / 2;
          storage_utilization := storage_utilization keyRange / 2;
          request_processing_load := request_processing_load keyRange / 2;
          memory_usage := memory_usage keyRange / 2 |};
        destination_instance :=
          JS.or (option_map instance_id (nth_error sortedServers 1))
                (instance_id sorted0) |} in
      (Returns (range1, range2), sortedServers)
  end.

(** One iteration of the selection loop. *)
Definition selectStep
    (best : option ServerReport * option ServerReport) (server : ServerReport)
  : option ServerReport * option ServerReport :=
  let (mostLoadedServer, leastLoadedServer) := best in
  (match mostLoadedServer with
   | None => Some server
   | Some most =>
       if JS.gt (Fixed.calculateCombinedLoad server)
                (Fixed.calculateCombinedLoad most)
       then Some server else Some most
   end,
   match leastLoadedServer with
   | None => Some server
   | Some least =>
       if JS.lt (Fixed.calculateCombinedLoad server)
                (Fixed.calculateCombinedLoad least)
       then Some server else Some least
   end).

Definition selectMostAndLeast (servers : list ServerReport)
  : option ServerReport * option ServerReport :=
  fold_left selectStep servers (None, None).

Definition selectKeyRangeToMove (key_ranges : list KeyRange)
  : option KeyRange :=
  match nth_error key_ranges 0 with
  | None => None
  | Some first =>
      Some (fold_left
              (fun prev current =>
                 if JS.gt (Fixed.calculateKeyRangeLoad current)
                          (Fixed.calculateKeyRangeLoad prev)
                 then current else prev)
              key_ranges first)
  end.

Definition imbalanced (mostLoadedServer leastLoadedServer : ServerReport)
  : bool :=
  let loadDifference :=
    Fixed.calculateCombinedLoad mostLoadedServer -
    Fixed.calculateCombinedLoad leastLoadedServer in
  JS.gt loadDifference (0.1 * Fixed.calculateCombinedLoad mostLoadedServer).

Definition slicerLoadBalancer (servers : list ServerReport)
  : outcome (list MigrationPlan.t) * list ServerReport :=
  match selectMostAndLeast servers with
  | (Some mostLoadedServer, Some leastLoadedServer) =>
      if imbalanced mostLoadedServer leastLoadedServer then
        match selectKeyRangeToMove (key_ranges mostLoadedServer) with
        | None => (TypeError, servers)
        | Some keyRangeToMove =>
            if shouldSplitKeyRange keyRangeToMove leastLoadedServer then
              match splitKeyRange keyRangeToMove servers with
              | (Returns (range1, range2), servers') =>
                  (Returns
                     [createMigrationPlan range1
                        (instance_id mostLoadedServer)
                        (destination_instance range1);
                      createMigrationPlan range2
                        (instance_id mostLoadedServer)
                        (destination_instance range2)],
                   servers')
              | (TypeError, servers') => (TypeError, servers')
              end
            else if canMoveKeyRange keyRangeToMove leastLoadedServer then
              (Returns
                 [createMigrationPlan keyRangeToMove
                    (instance_id mostLoadedServer)
                    (instance_id leastLoadedServer)],
               servers)
            else (Returns [], servers)
        end
      else (Returns [], servers)
  | _ => (Returns [], servers)
  end.

End FixedEngine.

(** ** The simulation harness of [src/slicer.test.ts]

    The harness keeps the server objects in the array [servers] and
    assigns to their fields; an object is identified by its position in
    the array.  The [key_ranges] arrays of distinct servers are distinct
    objects, as the harness builds them. *)

Module Harness.

(** [a === b] on strings. *)
Fixpoint strictEquals (a b : JS.string) : bool :=
  match a, b with
  | [], [] => true
  | x :: a', y :: b' => (x =? y)%N && strictEquals a' b'
  | _, _ => false
  end.

(** [l.find(p)], with the position of the object found. *)
Fixpoint findObject (A : Type) (p : A -> bool) (l : list A)
  : option (nat * A) :=
  match l with
  | [] => None
  | x :: l' =>
      if p x then Some (0%nat, x)
      else match findObject p l' with
           | Some (i, y) => Some (S i, y)
           | None => None
           end
  end.

(** Assignment [f] to the fields of the object at position [i]. *)
Fixpoint assign (A : Type) (i : nat) (f : A -> A) (l : list A) : list A :=
  match l, i with
  | [], _ => []
  | x :: l', O => f x :: l'
  | x :: l', S i' => x :: assign i' f l'
  end.

(** [Math.max(...l)]; with no argument it is [-Infinity] ([None]). *)
Definition maxOf (l : list Q) : option Q :=
  match l with
  | [] => None
  | x :: l' => Some (fold_left (fun m y => if JS.gt y m then y else m) l' x)
  end.

(** [Math.min(...l)]; with no argument it is [Infinity] ([None]). *)
Definition minOf (l : list Q) : option Q :=
  match l with
  | [] => None
  | x :: l' => Some (fold_left (fun m y => if JS.lt y m then y else m) l' x)
  end.

(** With no server [1 + maxLoad - minLoad] is [-Infinity] and its inverse
    is [-0], which adds nothing to [score]; otherwise the denominator is a
    finite number, at least [1]. *)
Definition calculateScore (servers : list ServerReport)
    (migrationPlans : list MigrationPlan.t) (weights : Weights) : Q :=
  let score := 0 in
  let loads :=
    map (fun server => calculateCombinedLoad server weights) servers in
  let balanceScore :=
    match maxOf loads, minOf loads with
    | Some maxLoad, Some minLoad => 1 / (1 + maxLoad - minLoad)
    | _, _ => 0
    end in
  let score := score + balanceScore * 100 in
  let migrationPenalty :=
    inject_Z (Z.of_nat (List.length migrationPlans)) *
    migrationPenalty weights in
  score - migrationPenalty.

(** [range.start_key === plan.start_key && range.end_key === plan.end_key]. *)
Definition planNames (plan : MigrationPlan.t) (range : KeyRange) : bool :=
  strictEquals (start_key range) (MigrationPlan.start_key plan) &&
  strictEquals (end_key range) (MigrationPlan.end_key plan).

(** [sourceServer.key_ranges = sourceServer.key_ranges.filter(...)]. *)
Definition removeRange (keyRange : KeyRange) (sourceServer : ServerReport)
  : ServerReport := {|
  instance_id := instance_id sourceServer;
  total_storage_utilization := total_storage_utilization sourceServer;
  total_request_processing_load := total_request_processing_load sourceServer;
  total_data_access_frequency := total_data_access_frequency sourceServer;
  total_memory_usage := total_memory_usage sourceServer;
  max_cpu_capacity := max_cpu_capacity sourceServer;
  max_memory_capacity := max_memory_capacity sourceServer;
  key_ranges :=
    filter (fun range =>
              negb (strictEquals (start_key range) (start_key keyRange)) ||
              negb (strictEquals (end_key range) (end_key keyRange)))
      (key_ranges sourceServer)
|}.

(** [destinationServer.key_ranges.push(keyRange)]. *)
Definition pushRange (keyRange : KeyRange) (destinationServer : ServerReport)
  : ServerReport := {|
  instance_id := instance_id destinationServer;
  total_storage_utilization := total_storage_utilization destinationServer;
  total_request_processing_load :=
    total_request_processing_load destinationServer;
  total_data_access_frequency := total_data_access_frequency destinationServer;
  total_memory_usage := total_memory_usage destinationServer;
  max_cpu_capacity := max_cpu_capacity destinationServer;
  max_memory_capacity := max_memory_capacity destinationServer;
  key_ranges := key_ranges destinationServer ++ [keyRange]
|}.

(** The four [+=] on the destination's totals. *)
Definition addLoad (keyRange : KeyRange) (destinationServer : ServerReport)
  : ServerReport := {|
  instance_id := instance_id destinationServer;
  total_storage_utilization :=
    total_storage_utilization destinationServer + storage_utilization keyRange;
  total_request_processing_load :=
    total_request_processing_load destinationServer +
    request_processing_load keyRange;
  total_data_access_frequency :=
    total_data_access_frequency destinationServer +
    data_access_frequency keyRange;
  total_memory_usage := total_memory_usage destinationServer + memory_usage keyRange;
  max_cpu_capacity := max_cpu_capacity destinationServer;
  max_memory_capacity := max_memory_capacity destinationServer;
  key_ranges := key_ranges destinationServer
|}.

(** The four [-=] on the source's totals. *)
Definition subtractLoad (keyRange : KeyRange) (sourceServer : ServerReport)
  : ServerReport := {|
  instance_id := instance_id sourceServer;
  total_storage_utilization :=
    total_storage_utilization sourceServer - storage_utilization keyRange;
  total_request_processing_load :=
    total_request_processing_load sourceServer -
    request_processing_load keyRange;
  total_data_access_frequency :=
    total_data_access_frequency sourceServer - data_access_frequency keyRange;
  total_memory_usage := total_memory_usage sourceServer - memory_usage keyRange;
  max_cpu_capacity := max_cpu_capacity sourceServer;
  max_memory_capacity := max_memory_capacity sourceServer;
  key_ranges := key_ranges sourceServer
|}.

(** The body of [migrationPlans.forEach((plan) => ...)]: the contents of
    [servers] after one plan has been carried out.  The assignments are
    made in the order of the source, each on the current state of the
    object it names, so a plan from a server to itself is covered. *)
Definition applyMigrationPlan (servers : list ServerReport)
    (plan : MigrationPlan.t) : list ServerReport :=
  match
    findObject (fun server =>
                  strictEquals (instance_id server)
                    (MigrationPlan.source_instance plan)) servers,
    findObject (fun server =>
                  strictEquals (instance_id server)
                    (MigrationPlan.destination_instance plan)) servers
  with
  | Some (source, sourceServer), Some (destination, _) =>
      match find (planNames plan) (key_ranges sourceServer) with
      | Some keyRange =>
          assign source (subtractLoad keyRange)
            (assign destination (addLoad keyRange)
               (assign destination (pushRange keyRange)
                  (assign source (removeRange keyRange) servers)))
      | None => servers
      end
  | _, _ => servers
  end.

(** The whole [forEach]. *)
Definition applyMigrationPlans (servers : list ServerReport)
    (migrationPlans : list MigrationPlan.t) : list ServerReport :=
  fold_left applyMigrationPlan migrationPlans servers.

Record KeyBehavior : Type := {
  key : JS.string;
  baseAccessFrequency : Q;
  accessFluctuation : Q;
  baseStorageUsage : Q;
  storageFluctuation : Q;
  processingLoadMultiplier : Q;
  baseMemoryUsage : Q;
  memoryFluctuation : Q;
  fluctuationPeriod : Q
}.

(** The properties of [keyBehaviorMap], in the order [for ... in] visits
    them. *)
Definition keyBehaviorMap : list (JS.string * KeyBehavior) := [
  (JS.str "a000",
   {| key := JS.str "a000"; baseAccessFrequency := 100;
      accessFluctuation := 50; baseStorageUsage := 50;
      storageFluctuation := 20; processingLoadMultiplier := 1.5;
      baseMemoryUsage := 20; memoryFluctuation := 10;
      fluctuationPeriod := 5 |});
  (JS.str "a500",
   {| key := JS.str "a500"; baseAccessFrequency := 80;
      accessFluctuation := 30; baseStorageUsage := 30;
      storageFluctuation := 15; processingLoadMultiplier := 1.2;
      baseMemoryUsage := 15; memoryFluctuation := 7;
      fluctuationPeriod := 7 |});
  (JS.str "b000",
   {| key := JS.str "b000"; baseAccessFrequency := 120;
      accessFluctuation := 60; baseStorageUsage := 40;
      storageFluctuation := 25; processingLoadMultiplier := 1.3;
      baseMemoryUsage := 18; memoryFluctuation := 12;
      fluctuationPeriod := 6 |});
  (JS.str "b500",
   {| key := JS.str "b500"; baseAccessFrequency := 90;
      accessFluctuation := 40; baseStorageUsage := 20;
      storageFluctuation := 10; processingLoadMultiplier := 1.1;
      baseMemoryUsage := 10; memoryFluctuation := 8;
      fluctuationPeriod := 8 |}) ].

Section Simulate.

(** [fluctuation time period] stands for
    [Math.sin((2 * Math.PI * time) / period)], a value the model of
    numbers does not compute. *)
Variable fluctuation : Q -> Q -> Q.

(** The four assignments of zero to a range. *)
Definition resetRange (range : KeyRange) : KeyRange := {|
  start_key := start_key range;
  end_key := end_key range;
  data_access_frequency := 0;
  storage_utilization := 0;
  request_processing_load := 0;
  memory_usage := 0
|}.

(** The body of [for (const key in keyBehaviorMap)]. *)
Definition addKeyBehavior (time : Q) (range : KeyRange)
    (property : JS.string * KeyBehavior) : KeyRange :=
  let (key, keyBehavior) := property in
  if JS.leb (start_key range) key && JS.leb key (end_key range) then
    let fluctuationFactor :=
      fluctuation time (fluctuationPeriod keyBehavior) in
    let currentAccessFrequency :=
      baseAccessFrequency keyBehavior +
      accessFluctuation keyBehavior * fluctuationFactor in
    let currentStorageUsage :=
      baseStorageUsage keyBehavior +
      storageFluctuation keyBehavior * fluctuationFactor in
    let currentProcessingLoad :=
      currentAccessFrequency * processingLoadMultiplier keyBehavior in
    let currentMemoryUsage :=
      baseMemoryUsage keyBehavior +
      memoryFluctuation keyBehavior * fluctuationFactor in
    {| start_key := start_key range;
       end_key := end_key range;
       data_access_frequency :=
         data_access_frequency range + currentAccessFrequency;
       storage_utilization := storage_utilization range + currentStorageUsage;
       request_processing_load :=
         request_processing_load range + currentProcessingLoad;
       memory_usage := memory_usage range + currentMemoryUsage |}
  else range.

(** A range after the reset and the aggregation of the key behaviors. *)
Definition simulateRange (time : Q) (range : KeyRange) : KeyRange :=
  fold_left (addKeyBehavior time) keyBehaviorMap (resetRange range).

(** The four [+=] on [updatedServer]. *)
Definition addRangeToTotals (updatedServer : ServerReport) (range : KeyRange)
  : ServerReport := {|
  instance_id := instance_id updatedServer;
  total_storage_utilization :=
    total_storage_utilization updatedServer + storage_utilization range;
  total_request_processing_load :=
    total_request_processing_load updatedServer +
    request_processing_load range;
  total_data_access_frequency :=
    total_data_access_frequency updatedServer + data_access_frequency range;
  total_memory_usage := total_memory_usage updatedServer + memory_usage range;
  max_cpu_capacity := max_cpu_capacity updatedServer;
  max_memory_capacity := max_memory_capacity updatedServer;
  key_ranges := key_ranges updatedServer
|}.

(** The returned [updatedServer], and the argument [server] after the
    call: its ranges are the objects the call has written to (the two
    servers share the array), its totals are untouched. *)
Definition simulateServerLoad (server : ServerReport) (time : Q)
  : ServerReport * ServerReport :=
  let ranges := map (simulateRange time) (key_ranges server) in
  let updatedServer := {|
    instance_id := instance_id server;
    total_storage_utilization := 0;
    total_request_processing_load := 0;
    total_data_access_frequency := 0;
    total_memory_usage := 0;
    max_cpu_capacity := max_cpu_capacity server;
    max_memory_capacity := max_memory_capacity server;
    key_ranges := ranges |} in
  (fold_left addRangeToTotals ranges updatedServer,
   {| instance_id := instance_id server;
      total_storage_utilization := total_storage_utilization server;
      total_request_processing_load := total_request_processing_load server;
      total_data_access_frequency := total_data_access_frequency server;
      total_memory_usage := total_memory_usage server;
      max_cpu_capacity := max_cpu_capacity server;
      max_memory_capacity := max_memory_capacity server;
      key_ranges := ranges |}).

End Simulate.

End Harness.

(** ** Further scenarios *)

Module Scenario.

(** [server5678] of the fixture with room for the hot range. *)
Definition roomy5678 : ServerReport := {|
  instance_id := JS.str "server-5678";
  total_storage_utilization := 400;
  total_request_processing_load := 2000;
  total_data_access_frequency := 8000;
  total_memory_usage := 1000;
  max_cpu_capacity := 10000;
  max_memory_capacity := 10000;
  key_ranges := key_ranges Fixture.server5678
|}.

(** [server1234] of the fixture with the same identifier, capacities and
    range keys, and every total and metric at zero. *)
Definition drained1234 : ServerReport := {|
  instance_id := JS.str "server-1234";
  total_storage_utilization := 0;
  total_request_processing_load := 0;
  total_data_access_frequency := 0;
  total_memory_usage := 0;
  max_cpu_capacity := 5000;
  max_memory_capacity := 3000;
  key_ranges := [
    Fixture.mkRange "a000" "a999" 0 0 0 0;
    Fixture.mkRange "b000" "b999" 0 0 0 0;
    Fixture.mkRange "c000" "c999" 0 0 0 0 ]
|}.

(** A fleet on which the engine moves the hot range whole. *)
Definition moveFleet : list ServerReport := [Fixture.server1234; roomy5678].

End Scenario.

(** ** One simulated run

    [runSingleSimulation] of [src/slicer.test.ts]: twenty time steps, each
    simulating the load, asking the engine for plans and carrying them out
    on the array the engine has left, then the score of the final fleet.
    A [TypeError] of the engine ends the run. *)

Module Simulation.

Definition initialServers : list ServerReport := [
  {| instance_id := JS.str "server-1234";
     total_storage_utilization := 0;
     total_request_processing_load := 0;
     total_data_access_frequency := 0;
     total_memory_usage := 0;
     max_cpu_capacity := 5000;
     max_memory_capacity := 3000;
     key_ranges := [ Fixture.mkRange "a000" "a999" 0 0 0 0 ] |};
  {| instance_id := JS.str "server-5678";
     total_storage_utilization := 0;
     total_request_processing_load := 0;
     total_data_access_frequency := 0;
     total_memory_usage := 0;
     max_cpu_capacity := 4000;
     max_memory_capacity := 2000;
     key_ranges := [ Fixture.mkRange "b000" "b999" 0 0 0 0 ] |} ].

(** The values of [time] in [for (let time = 0; time < timeSteps; time++)]. *)
Definition times : list Q := map (fun n => inject_Z (Z.of_nat n)) (seq 0 20).

Section Run.
Variable fluctuation : Q -> Q -> Q.

(** The body of the loop on the pair [(servers, migrationPlans)]. *)
Definition timeStep (weights : Weights)
    (state : outcome (list ServerReport * list MigrationPlan.t)) (time : Q)
  : outcome (list ServerReport * list MigrationPlan.t) :=
  match state with
  | TypeError => TypeError
  | Returns (servers, migrationPlans) =>
      let servers :=
        map (fun server =>
               fst (Harness.simulateServerLoad fluctuation server time))
          servers in
      match slicerLoadBalancer servers weights with
      | (TypeError, _) => TypeError
      | (Returns newMigrations, servers) =>
          Returns (Harness.applyMigrationPlans servers newMigrations,
                   migrationPlans ++ newMigrations)
      end
  end.

Definition runSingleSimulation (weights : Weights) : outcome Q :=
  match fold_left (timeStep weights) times (Returns (initialServers, [])) with
  | TypeError => TypeError
  | Returns (servers, migrationPlans) =>
      Returns (Harness.calculateScore servers migrationPlans weights)
  end.

End Run.

End Simulation.

(** ** Notions used for the remaining code *)

(** A key behavior whose fluctuations stay within its baselines. *)
Definition steady (kb : Harness.KeyBehavior) : Prop :=
  0 <= Harness.accessFluctuation kb <= Harness.baseAccessFrequency kb /\
  0 <= Harness.storageFluctuation kb <= Harness.baseStorageUsage kb /\
  0 <= Harness.memoryFluctuation kb <= Harness.baseMemoryUsage kb /\
  0 <= Harness.processingLoadMultiplier kb.

(** A range with non-negative metrics. *)
Definition nonnegative (r : KeyRange) : Prop :=
  0 <= data_access_frequency r /\ 0 <= storage_utilization r /\
  0 <= request_processing_load r /\ 0 <= memory_usage r.




(** [m] is the first element of [l] with the greatest value of [f]. *)
Definition first_greatest (A : Type) (f : A -> Q) (l : list A) (m : A) : Prop :=
  exists l1 l2, l = l1 ++ m :: l2 /\
    (forall x, In x l1 -> f x < f m) /\ (forall x, In x l2 -> f x <= f m).

(** The sum of a metric over ranges, taken as the harness takes it. *)
Definition rangeTotal (metric : KeyRange -> Q) (ranges : list KeyRange) : Q :=
  fold_left (fun acc r => acc + metric r) ranges 0.

(** The totals of a server are the sums of the metrics of its ranges. *)
Definition consistent (s : ServerReport) : Prop :=
  total_storage_utilization s ==
    rangeTotal storage_utilization (key_ranges s) /\
  total_request_processing_load s ==
    rangeTotal request_processing_load (key_ranges s) /\
  total_data_access_frequency s ==
    rangeTotal data_access_frequency (key_ranges s) /\
  total_memory_usage s == rangeTotal memory_usage (key_ranges s).

(** ** Comparisons on numbers *)

Lemma lt_true (x y : Q) : JS.lt x y = true <-> x < y.
Proof.
  unfold JS.lt. rewrite negb_true_iff.
  destruct (Qle_bool y x) eqn:E.
  - apply Qle_bool_iff in E. split; [discriminate | intro H; lra].
  - split; [intros _ | reflexivity].
    apply Qnot_le_lt. intro H. apply Qle_bool_iff in H. congruence.
Qed.

Lemma lt_false (x y : Q) : JS.lt x y = false <-> y <= x.
Proof.
  unfold JS.lt. rewrite negb_false_iff. apply Qle_bool_iff.
Qed.

Lemma gt_true (x y : Q) : JS.gt x y = true <-> y < x.
Proof. apply lt_true. Qed.

Lemma gt_false (x y : Q) : JS.gt x y = false <-> x <= y.
Proof. apply lt_false. Qed.

Lemma le_true (x y : Q) : JS.le x y = true <-> x <= y.
Proof. apply Qle_bool_iff. Qed.

Lemma le_is_not_gt (x y : Q) : JS.le x y = negb (JS.gt x y).
Proof. unfold JS.gt, JS.lt, JS.le. now rewrite negb_involutive. Qed.

(** ** The selection loop *)

Section Selection.
Variable w : Weights.
Let score (s : ServerReport) : Q := calculateCombinedLoad s w.

Lemma first_max_singleton (s : ServerReport) : first_max score [s] s.
Proof.
  exists [], []. repeat split; intros x [].
Qed.

Lemma first_min_singleton (s : ServerReport) : first_min score [s] s.
Proof.
  exists [], []. repeat split; intros x [].
Qed.

Lemma first_max_bound (l : list ServerReport) (m x : ServerReport) :
  first_max score l m -> In x l -> score x <= score m.
Proof.
  intros (l1 & l2 & -> & H1 & H2) Hx.
  apply in_app_or in Hx. destruct Hx as [Hx | [<- | Hx]].
  - apply Qlt_le_weak, H1, Hx.
  - apply Qle_refl.
  - apply H2, Hx.
Qed.

Lemma first_min_bound (l : list ServerReport) (m x : ServerReport) :
  first_min score l m -> In x l -> score m <= score x.
Proof.
  intros (l1 & l2 & -> & H1 & H2) Hx.
  apply in_app_or in Hx. destruct Hx as [Hx | [<- | Hx]].
  - apply Qlt_le_weak, H1, Hx.
  - apply Qle_refl.
  - apply H2, Hx.
Qed.

Lemma first_max_In (l : list ServerReport) (m : ServerReport) :
  first_max score l m -> In m l.
Proof.
  intros (l1 & l2 & -> & _). apply in_or_app. right. now left.
Qed.

Lemma first_min_In (l : list ServerReport) (m : ServerReport) :
  first_min score l m -> In m l.
Proof.
  intros (l1 & l2 & -> & _). apply in_or_app. right. now left.
Qed.

(** Appending one server to the scanned prefix: a strictly greater score
    replaces the maximum, anything else leaves it. *)
Lemma first_max_snoc (pre : list ServerReport) (m x : ServerReport) :
  first_max score pre m ->
  first_max score (pre ++ [x])
    (if JS.gt (score x) (score m) then x else m).
Proof.
  intros Hm. destruct (JS.gt (score x) (score m)) eqn:E.
  - apply gt_true in E. exists pre, []. split; [reflexivity | split].
    + intros y Hy. apply Qle_lt_trans with (score m); [| exact E].
      eapply first_max_bound; eassumption.
    + intros y [].
  - apply gt_false in E. destruct Hm as (l1 & l2 & -> & H1 & H2).
    exists l1, (l2 ++ [x]). split; [now rewrite <- app_assoc | split].
    + exact H1.
    + intros y Hy. apply in_app_or in Hy. destruct Hy as [Hy | [<- | []]].
      * apply H2, Hy.
      * exact E.
Qed.

Lemma first_min_snoc (pre : list ServerReport) (m x : ServerReport) :
  first_min score pre m ->
  first_min score (pre ++ [x])
    (if JS.lt (score x) (score m) then x else m).
Proof.
  intros Hm. destruct (JS.lt (score x) (score m)) eqn:E.
  - apply lt_true in E. exists pre, []. split; [reflexivity | split].
    + intros y Hy. apply Qlt_le_trans with (score m); [exact E |].
      eapply first_min_bound; eassumption.
    + intros y [].
  - apply lt_false in E. destruct Hm as (l1 & l2 & -> & H1 & H2).
    exists l1, (l2 ++ [x]). split; [now rewrite <- app_assoc | split].
    + exact H1.
    + intros y Hy. apply in_app_or in Hy. destruct Hy as [Hy | [<- | []]].
      * apply H2, Hy.
      * exact E.
Qed.

(** The loop invariant: after the prefix [pre] the pair holds the first
    maximum and the first minimum of [pre]. *)
Lemma selectStep_invariant (l pre : list ServerReport) (m n : ServerReport) :
  first_max score pre m -> first_min score pre n ->
  exists m' n',
    fold_left (selectStep w) l (Some m, Some n) = (Some m', Some n') /\
    first_max score (pre ++ l) m' /\ first_min score (pre ++ l) n'.
Proof.
  revert pre m n. induction l as [| x l IH]; intros pre m n Hm Hn.
  - exists m, n. now rewrite app_nil_r.
  - cbn [fold_left selectStep].
    pose proof (first_max_snoc x Hm) as Hm'.
    pose proof (first_min_snoc x Hn) as Hn'.
    fold (score x) (score m) (score n).
    replace (pre ++ x :: l) with ((pre ++ [x]) ++ l)
      by (rewrite <- app_assoc; reflexivity).
    destruct (JS.gt (score x) (score m)), (JS.lt (score x) (score n));
      apply IH; assumption.
Qed.

Lemma selectMostAndLeast_cons (s : ServerReport) (l : list ServerReport) :
  exists most least,
    selectMostAndLeast (s :: l) w = (Some most, Some least) /\
    first_max score (s :: l) most /\ first_min score (s :: l) least.
Proof.
  unfold selectMostAndLeast. cbn [fold_left selectStep].
  apply (selectStep_invariant l (pre := [s])).
  - apply first_max_singleton.
  - apply first_min_singleton.
Qed.

End Selection.

(** ** The in-place sort *)

Section SortFacts.
Variable A : Type.
Variable cmp : A -> A -> Q.

Lemma insert_perm (x : A) (l : list A) :
  Permutation (x :: l) (JS.insert cmp x l).
Proof.
  induction l as [| y l IH]; cbn [JS.insert].
  - apply Permutation_refl.
  - destruct (JS.lt (cmp y x) 0).
    + eapply perm_trans; [apply perm_swap | apply perm_skip, IH].
    + apply Permutation_refl.
Qed.

Lemma sort_perm (l : list A) : Permutation l (JS.sort cmp l).
Proof.
  induction l as [| x l IH]; cbn [JS.sort].
  - apply perm_nil.
  - eapply perm_trans; [apply perm_skip, IH | apply insert_perm].
Qed.

Lemma sort_length (l : list A) :
  List.length (JS.sort cmp l) = List.length l.
Proof. symmetry. apply Permutation_length, sort_perm. Qed.

Lemma sort_nil_inv (l : list A) : JS.sort cmp l = [] -> l = [].
Proof.
  intros H. apply Permutation_nil. rewrite <- H. apply Permutation_sym, sort_perm.
Qed.

End SortFacts.

Section SortByLoad.
Variable w : Weights.
Let score (s : ServerReport) : Q := calculateCombinedLoad s w.
Let ascending : list ServerReport -> Prop :=
  StronglySorted (fun a b => score a <= score b).

Lemma byCombinedLoad_lt (a b : ServerReport) :
  JS.lt (byCombinedLoad w a b) 0 = true <-> score a < score b.
Proof.
  rewrite lt_true. unfold byCombinedLoad, score. split; intro; lra.
Qed.

Lemma byCombinedLoad_ge (a b : ServerReport) :
  JS.lt (byCombinedLoad w a b) 0 = false <-> score b <= score a.
Proof.
  rewrite lt_false. unfold byCombinedLoad, score. split; intro; lra.
Qed.

Lemma insert_ascending (x : ServerReport) (l : list ServerReport) :
  ascending l -> ascending (JS.insert (byCombinedLoad w) x l).
Proof.
  unfold ascending. induction l as [| y l IH]; intros Hl; cbn [JS.insert].
  - repeat constructor.
  - inversion Hl as [| ? ? Hl' Hy]; subst.
    destruct (JS.lt (byCombinedLoad w y x) 0) eqn:E.
    + apply byCombinedLoad_lt in E. constructor; [apply IH, Hl' |].
      apply Forall_forall. intros z Hz.
      apply (Permutation_in _ (Permutation_sym (insert_perm _ x l))) in Hz.
      destruct Hz as [<- | Hz].
      * apply Qlt_le_weak, E.
      * rewrite Forall_forall in Hy. apply Hy, Hz.
    + apply byCombinedLoad_ge in E. constructor; [exact Hl |].
      constructor; [exact E |].
      rewrite Forall_forall in Hy |- *. intros z Hz.
      apply Qle_trans with (score y); [exact E | apply Hy, Hz].
Qed.

Lemma sort_ascending (l : list ServerReport) :
  ascending (JS.sort (byCombinedLoad w) l).
Proof.
  induction l as [| x l IH]; cbn [JS.sort].
  - constructor.
  - apply insert_ascending, IH.
Qed.

(** Stability at the front: the sorted array starts with the first
    least-loaded server of the input. *)
Lemma sort_head_first_min (l : list ServerReport) (s0 : ServerReport) :
  nth_error (JS.sort (byCombinedLoad w) l) 0 = Some s0 ->
  first_min score l s0.
Proof.
  revert s0. induction l as [| x l IH]; intros s0; cbn [JS.sort].
  - discriminate.
  - destruct (JS.sort (byCombinedLoad w) l) as [| y r] eqn:Es; cbn [JS.insert].
    + apply sort_nil_inv in Es. subst l. intros [= <-].
      apply first_min_singleton.
    + specialize (IH y eq_refl).
      destruct (JS.lt (byCombinedLoad w y x) 0) eqn:E; intros [= <-].
      * apply byCombinedLoad_lt in E.
        destruct IH as (l1 & l2 & -> & H1 & H2).
        exists (x :: l1), l2. split; [reflexivity | split; [| exact H2]].
        intros z [<- | Hz]; [exact E | apply H1, Hz].
      * apply byCombinedLoad_ge in E.
        exists [], l. split; [reflexivity | split; [intros z [] |]].
        intros z Hz. apply Qle_trans with (score y); [exact E |].
        eapply first_min_bound; eassumption.
Qed.

(** The first minimum of a list is one position, hence one server. *)
Lemma first_min_unique (l : list ServerReport) (m m' : ServerReport) :
  first_min score l m -> first_min score l m' -> m = m'.
Proof.
  intros (l1 & l2 & -> & H1 & H2) (l1' & l2' & E & H1' & H2').
  apply app_eq_app in E. destruct E as (k & [[-> E] | [-> E]]).
  - destruct k as [| z k]; cbn in E.
    + now injection E.
    + injection E as <- ->. exfalso.
      assert (score m < score m') by (apply H1; apply in_or_app; right; now left).
      assert (score m' <= score m)
        by (apply H2'; apply in_or_app; right; now left).
      lra.
  - destruct k as [| z k]; cbn in E.
    + now injection E.
    + injection E as <- ->. exfalso.
      assert (score m' < score m) by (apply H1'; apply in_or_app; right; now left).
      assert (score m <= score m')
        by (apply H2; apply in_or_app; right; now left).
      lra.
Qed.

End SortByLoad.

(** ** The engine, path by path *)

Lemma canMove_is_not_shouldSplit (k : KeyRange) (s : ServerReport) :
  canMoveKeyRange k s = negb (shouldSplitKeyRange k s).
Proof.
  unfold canMoveKeyRange, shouldSplitKeyRange.
  now rewrite negb_orb, !le_is_not_gt.
Qed.

Lemma selectKeyRangeToMove_none (l : list KeyRange) (w : Weights) :
  selectKeyRangeToMove l w = None <-> l = [].
Proof.
  unfold selectKeyRangeToMove. destruct l; cbn [nth_error]; split;
    congruence.
Qed.

(** On a non-empty array the split returns, and leaves the array sorted. *)
Lemma splitKeyRange_returns (k : KeyRange) (servers : list ServerReport)
    (w : Weights) :
  servers <> [] ->
  exists range1 range2,
    splitKeyRange k servers w =
      (Returns (range1, range2), JS.sort (byCombinedLoad w) servers).
Proof.
  intros Hne. unfold splitKeyRange.
  destruct (JS.sort (byCombinedLoad w) servers) as [| s0 r] eqn:E.
  - apply sort_nil_inv in E. contradiction.
  - cbn [nth_error]. eauto.
Qed.

(** Every call follows exactly one of the paths of [engine_path]. *)
Lemma slicerLoadBalancer_path (servers : list ServerReport) (w : Weights) :
  engine_path servers w (slicerLoadBalancer servers w).
Proof.
  unfold slicerLoadBalancer. destruct servers as [| s l].
  - cbn. now apply PathEmpty.
  - destruct (selectMostAndLeast_cons w s l) as (most & least & E & _).
    rewrite E.
    destruct (imbalanced most least w) eqn:Ei;
      [| now apply PathBalanced with most least].
    destruct (selectKeyRangeToMove (key_ranges most) w) as [k |] eqn:Ek.
    + destruct (shouldSplitKeyRange k least) eqn:Es.
      * destruct (@splitKeyRange_returns k (s :: l) w) as (r1 & r2 & Er);
          [discriminate |].
        rewrite Er. now apply PathSplit with least k.
      * pose proof (canMove_is_not_shouldSplit k least) as Ec.
        rewrite Es in Ec. cbn in Ec. rewrite Ec.
        now apply PathMove.
    + apply selectKeyRangeToMove_none in Ek.
      now apply PathNoRange with most least.
Qed.

Lemma selectMostAndLeast_sound (servers : list ServerReport) (w : Weights)
    (most least : ServerReport) :
  selectMostAndLeast servers w = (Some most, Some least) ->
  first_max (fun s => calculateCombinedLoad s w) servers most /\
  first_min (fun s => calculateCombinedLoad s w) servers least.
Proof.
  destruct servers as [| s l]; [discriminate |].
  destruct (selectMostAndLeast_cons w s l) as (m & n & E & Hm & Hn).
  rewrite E. now intros [= <- <-].
Qed.

(** The head of the sorted array is the server the loop selected as least
    loaded. *)
Lemma sorted_head_is_least_loaded (servers : list ServerReport) (w : Weights)
    (most least : ServerReport) :
  selectMostAndLeast servers w = (Some most, Some least) ->
  nth_error (JS.sort (byCombinedLoad w) servers) 0 = Some least.
Proof.
  intros E. destruct (selectMostAndLeast_sound _ _ E) as [_ Hn].
  destruct (JS.sort (byCombinedLoad w) servers) as [| s0 r] eqn:Es.
  - apply sort_nil_inv in Es. subst servers. discriminate E.
  - cbn [nth_error]. f_equal.
    eapply first_min_unique; [| exact Hn].
    apply sort_head_first_min. now rewrite Es.
Qed.

Lemma imbalanced_true (most least : ServerReport) (w : Weights) :
  imbalanced most least w = true <->
  0.1 * calculateCombinedLoad most w <
  calculateCombinedLoad most w - calculateCombinedLoad least w.
Proof. unfold imbalanced. apply gt_true. Qed.

Lemma imbalanced_false (most least : ServerReport) (w : Weights) :
  imbalanced most least w = false <->
  calculateCombinedLoad most w - calculateCombinedLoad least w <=
  0.1 * calculateCombinedLoad most w.
Proof. unfold imbalanced. apply gt_false. Qed.

Lemma balanced_no_plans (servers : list ServerReport) (w : Weights)
    (most least : ServerReport) :
  selectMostAndLeast servers w = (Some most, Some least) ->
  imbalanced most least w = false ->
  slicerLoadBalancer servers w = (Returns [], servers).
Proof.
  intros E Ei. unfold slicerLoadBalancer. now rewrite E, Ei.
Qed.

(** Under the data-model invariants a score is non-negative. *)
Lemma calculateCombinedLoad_nonneg (s : ServerReport) (w : Weights) :
  wf_weights w -> wf_server s -> 0 <= calculateCombinedLoad s w.
Proof.
  intros (Hc & Hm & Hs & Ha) (Hts & Htc & Hta & Htm).
  unfold calculateCombinedLoad.
  pose proof (Qmult_le_0_compat _ _ Htc Hc).
  pose proof (Qmult_le_0_compat _ _ Hts Hs).
  pose proof (Qmult_le_0_compat _ _ Hta Ha).
  pose proof (Qmult_le_0_compat _ _ Htm Hm).
  lra.
Qed.

(** Equal, non-negative scores of the two selected servers are below the
    threshold. *)
Lemma equal_scores_balanced (most least : ServerReport) (w : Weights) :
  0 <= calculateCombinedLoad most w ->
  calculateCombinedLoad most w == calculateCombinedLoad least w ->
  imbalanced most least w = false.
Proof.
  intros H0 He. apply imbalanced_false. lra.
Qed.

Unset Implicit Arguments.

(** Closes a goal between closed terms by evaluation. *)
Ltac evaluate := vm_compute; reflexivity.

(** ** Imbalance detection (C1, C8) *)

(** C1.  The loop selects the first server of greatest score and the first
    server of least score (strict comparisons, so the first encountered
    wins a tie); plans are returned only when
    [score most - score least > 0.1 * score most]; and a fleet of
    well-formed servers that all have the same score yields no plan and an
    untouched array. *)
Theorem C1_selection_threshold_and_equal_scores
    (servers : list ServerReport) (w : Weights) :
  (servers <> [] ->
   exists most least,
     selectMostAndLeast servers w = (Some most, Some least) /\
     first_max (fun s => calculateCombinedLoad s w) servers most /\
     first_min (fun s => calculateCombinedLoad s w) servers least) /\
  (forall plans arr,
     slicerLoadBalancer servers w = (Returns plans, arr) -> plans <> [] ->
     exists most least,
       selectMostAndLeast servers w = (Some most, Some least) /\
       0.1 * calculateCombinedLoad most w <
       calculateCombinedLoad most w - calculateCombinedLoad least w) /\
  (wf_weights w -> Forall wf_server servers ->
   (forall a b, In a servers -> In b servers ->
      calculateCombinedLoad a w == calculateCombinedLoad b w) ->
   slicerLoadBalancer servers w = (Returns [], servers)).
Proof.
  split; [| split].
  - destruct servers as [| s l]; [congruence | intros _].
    apply selectMostAndLeast_cons.
  - intros plans arr E Hne.
    pose proof (slicerLoadBalancer_path servers w) as P. rewrite E in P.
    inversion P; subst; try congruence;
      eexists _, _; (split; [eassumption | now apply imbalanced_true]).
  - intros Hw Hs Heq. destruct servers as [| s l]; [reflexivity |].
    destruct (selectMostAndLeast_cons w s l) as (most & least & E & Hm & Hn).
    apply balanced_no_plans with most least; [exact E |].
    apply first_max_In in Hm. apply first_min_In in Hn.
    apply equal_scores_balanced.
    + apply calculateCombinedLoad_nonneg; [exact Hw |].
      rewrite Forall_forall in Hs. apply Hs, Hm.
    + apply Heq; assumption.
Qed.

Lemma wf_weights_default : wf_weights weights.
Proof. repeat split; vm_compute; discriminate. Qed.

Lemma wf_server_fixture : Forall wf_server Fixture.reports.
Proof. repeat constructor; vm_compute; discriminate. Qed.

Lemma C1_witness :
  wf_weights weights /\
  Forall wf_server [Fixture.server5678; Fixture.server5678] /\
  slicerLoadBalancer [Fixture.server5678; Fixture.server5678] weights =
    (Returns [], [Fixture.server5678; Fixture.server5678]).
Proof.
  assert (Hs : Forall wf_server [Fixture.server5678; Fixture.server5678])
    by (repeat constructor; vm_compute; discriminate).
  split; [exact wf_weights_default | split; [exact Hs |]].
  apply (C1_selection_threshold_and_equal_scores
           [Fixture.server5678; Fixture.server5678] weights).
  - exact wf_weights_default.
  - exact Hs.
  - intros a b [<- | [<- | []]] [<- | [<- | []]]; reflexivity.
Defined.

(** C8.  A well-formed fleet of fewer than two servers yields no plan: the
    empty fleet returns the empty list without an error, and a single
    server is both most and least loaded, so its difference of zero is
    not above a tenth of its non-negative score. *)
Theorem C8_fewer_than_two_servers (servers : list ServerReport) (w : Weights) :
  wf_weights w -> Forall wf_server servers ->
  (List.length servers < 2)%nat ->
  slicerLoadBalancer servers w = (Returns [], servers).
Proof.
  intros Hw Hs Hlen.
  destruct servers as [| s [| s' l]]; [reflexivity | | cbn in Hlen; lia].
  apply balanced_no_plans with s s; [reflexivity |].
  apply equal_scores_balanced; [| reflexivity].
  apply calculateCombinedLoad_nonneg; [exact Hw | now inversion Hs].
Qed.

Lemma C8_witness :
  slicerLoadBalancer [Fixture.server1234] weights =
    (Returns [], [Fixture.server1234]) /\
  slicerLoadBalancer [] weights = (Returns [], []).
Proof.
  split.
  - apply (C8_fewer_than_two_servers [Fixture.server1234] weights).
    + repeat split; vm_compute; discriminate.
    + repeat constructor; vm_compute; discriminate.
    + cbn. lia.
  - apply (C8_fewer_than_two_servers [] weights).
    + repeat split; vm_compute; discriminate.
    + constructor.
    + cbn. lia.
Defined.

(** ** Split or move (C2) *)

Lemma shouldSplitKeyRange_true (k : KeyRange) (s : ServerReport) :
  shouldSplitKeyRange k s = true <->
  max_cpu_capacity s < total_request_processing_load s + request_processing_load k \/
  max_memory_capacity s < total_memory_usage s + memory_usage k.
Proof.
  unfold shouldSplitKeyRange. now rewrite orb_true_iff, !gt_true.
Qed.

Lemma canMoveKeyRange_true (k : KeyRange) (s : ServerReport) :
  canMoveKeyRange k s = true <->
  total_request_processing_load s + request_processing_load k <= max_cpu_capacity s /\
  total_memory_usage s + memory_usage k <= max_memory_capacity s.
Proof.
  unfold canMoveKeyRange. now rewrite andb_true_iff, !le_true.
Qed.

Lemma selected_nonempty (servers : list ServerReport) (w : Weights)
    (most least : ServerReport) :
  selectMostAndLeast servers w = (Some most, Some least) -> servers <> [].
Proof. destruct servers; [discriminate | discriminate]. Qed.

(** C2.  Once the threshold has triggered on a hot range [k]: the range is
    split exactly when a projection exceeds its capacity, it is moved whole
    exactly otherwise (equality moves), a single move plan implies both
    projections are within capacity, and the call never returns an empty
    plan list. *)
Theorem C2_split_iff_over_capacity_else_move
    (servers : list ServerReport) (w : Weights)
    (most least : ServerReport) (k : KeyRange) :
  selectMostAndLeast servers w = (Some most, Some least) ->
  imbalanced most least w = true ->
  selectKeyRangeToMove (key_ranges most) w = Some k ->
  let projectedCpu :=
    total_request_processing_load least + request_processing_load k in
  let projectedMemory := total_memory_usage least + memory_usage k in
  let over :=
    max_cpu_capacity least < projectedCpu \/
    max_memory_capacity least < projectedMemory in
  (shouldSplitKeyRange k least = true <-> over) /\
  (canMoveKeyRange k least = negb (shouldSplitKeyRange k least)) /\
  (over ->
   exists range1 range2,
     splitKeyRange k servers w =
       (Returns (range1, range2), JS.sort (byCombinedLoad w) servers) /\
     slicerLoadBalancer servers w =
       (Returns [createMigrationPlan range1 (instance_id most)
                   (destination_instance range1);
                 createMigrationPlan range2 (instance_id most)
                   (destination_instance range2)],
        JS.sort (byCombinedLoad w) servers)) /\
  (~ over ->
   slicerLoadBalancer servers w =
     (Returns [createMigrationPlan k (instance_id most) (instance_id least)],
      servers)) /\
  (forall plan arr,
     slicerLoadBalancer servers w = (Returns [plan], arr) ->
     plan = createMigrationPlan k (instance_id most) (instance_id least) /\
     projectedCpu <= max_cpu_capacity least /\
     projectedMemory <= max_memory_capacity least) /\
  (forall arr, slicerLoadBalancer servers w <> (Returns [], arr)).
Proof.
  intros E Ei Ek projectedCpu projectedMemory over.
  assert (Hsplit : shouldSplitKeyRange k least = true <-> over)
    by apply shouldSplitKeyRange_true.
  pose proof (canMove_is_not_shouldSplit k least) as Hmove.
  destruct (splitKeyRange_returns k w (selected_nonempty _ _ _ _ E))
    as (range1 & range2 & Er).
  unfold slicerLoadBalancer. rewrite E, Ei, Ek, Hmove, Er.
  split; [exact Hsplit | split; [reflexivity |]].
  destruct (shouldSplitKeyRange k least) eqn:Es; cbn [negb].
  - assert (Ho : over) by now apply Hsplit.
    split; [intros _; now exists range1, range2 |].
    split; [intros Hn; contradiction |].
    split; [intros plan arr H; discriminate H |].
    intros arr H; discriminate H.
  - assert (Ho : ~ over) by (rewrite <- Hsplit; discriminate).
    assert (Hc : canMoveKeyRange k least = true) by now rewrite Hmove.
    apply canMoveKeyRange_true in Hc.
    split; [intros H; contradiction |].
    split; [reflexivity |].
    split; [intros plan arr [= <- <-]; split; [reflexivity | exact Hc] |].
    intros arr H; discriminate H.
Qed.

Lemma C2_witness :
  selectMostAndLeast Fixture.reports weights =
    (Some Fixture.server1234, Some Fixture.server5678) /\
  imbalanced Fixture.server1234 Fixture.server5678 weights = true /\
  selectKeyRangeToMove (key_ranges Fixture.server1234) weights =
    Some Fixture.hotRange /\
  (shouldSplitKeyRange Fixture.hotRange Fixture.server5678 = true <->
   max_cpu_capacity Fixture.server5678 <
     total_request_processing_load Fixture.server5678 +
     request_processing_load Fixture.hotRange \/
   max_memory_capacity Fixture.server5678 <
     total_memory_usage Fixture.server5678 + memory_usage Fixture.hotRange) /\
  (forall arr, slicerLoadBalancer Fixture.reports weights <> (Returns [], arr)).
Proof.
  assert (E : selectMostAndLeast Fixture.reports weights =
              (Some Fixture.server1234, Some Fixture.server5678))
    by evaluate.
  assert (Ei : imbalanced Fixture.server1234 Fixture.server5678 weights = true)
    by evaluate.
  assert (Ek : selectKeyRangeToMove (key_ranges Fixture.server1234) weights =
               Some Fixture.hotRange)
    by evaluate.
  repeat (split; [assumption |]).
  destruct (C2_split_iff_over_capacity_else_move
              Fixture.reports weights Fixture.server1234 Fixture.server5678
              Fixture.hotRange E Ei Ek)
    as (Hiff & _ & _ & _ & _ & Hne).
  split; [exact Hiff | exact Hne].
Defined.

(** ** Shape of the result (C5) and frame (C9) *)

(** C5.  A call either returns at most two plans or throws because the
    most loaded server of an imbalanced fleet has no key range.  Two
    returned plans are the range-A plan followed by the range-B plan of one
    split, both sourced at the most loaded server; and a fleet on which no
    imbalance is detected gets no plan. *)
Theorem C5_at_most_two_plans (servers : list ServerReport) (w : Weights) :
  ((exists plans arr, slicerLoadBalancer servers w = (Returns plans, arr)) \/
   (slicerLoadBalancer servers w = (TypeError, servers) /\
    exists most least,
      selectMostAndLeast servers w = (Some most, Some least) /\
      imbalanced most least w = true /\ key_ranges most = [])) /\
  (forall plans arr,
     slicerLoadBalancer servers w = (Returns plans, arr) ->
     (List.length plans <= 2)%nat /\
     (List.length plans = 2%nat ->
      exists most least k range1 range2,
        selectMostAndLeast servers w = (Some most, Some least) /\
        selectKeyRangeToMove (key_ranges most) w = Some k /\
        splitKeyRange k servers w = (Returns (range1, range2), arr) /\
        plans = [createMigrationPlan range1 (instance_id most)
                   (destination_instance range1);
                 createMigrationPlan range2 (instance_id most)
                   (destination_instance range2)] /\
        Forall (fun p => MigrationPlan.source_instance p = instance_id most)
          plans) /\
     ((forall most least,
         selectMostAndLeast servers w = (Some most, Some least) ->
         imbalanced most least w = false) ->
      plans = [])).
Proof.
  pose proof (slicerLoadBalancer_path servers w) as P.
  remember (slicerLoadBalancer servers w) as r eqn:Er.
  destruct P as [H0 | most least E Ei | most least E Ei Hk
                 | most least k range1 range2 E Ei Ek Es Esp
                 | most least k E Ei Ek Es Ec].
  - split; [left; eauto |].
    intros plans arr [= <- <-]. cbn. repeat split; [lia | discriminate].
  - split; [left; eauto |].
    intros plans arr [= <- <-]. cbn. repeat split; [lia | discriminate].
  - split; [right; split; [reflexivity | eauto] |].
    intros plans arr [=].
  - split; [left; eauto |].
    intros plans arr [= <- <-]. cbn. split; [lia | split].
    + intros _. exists most, least, k, range1, range2.
      repeat split; try assumption. repeat constructor.
    + intros Hb. specialize (Hb most least E). congruence.
  - split; [left; eauto |].
    intros plans arr [= <- <-]. cbn. split; [lia | split].
    + discriminate.
    + intros Hb. specialize (Hb most least E). congruence.
Qed.

Lemma C5_witness :
  let plans := [Fixture.mkPlan "a000" "a" "server-1234" "server-5678";
                Fixture.mkPlan "a" "a999" "server-1234" "server-1234"] in
  slicerLoadBalancer Fixture.reports weights =
    (Returns plans, [Fixture.server5678; Fixture.server1234]) /\
  (List.length plans <= 2)%nat /\
  exists most : ServerReport,
    Forall (fun p => MigrationPlan.source_instance p = instance_id most) plans.
Proof.
  intros plans.
  assert (E : slicerLoadBalancer Fixture.reports weights =
              (Returns plans, [Fixture.server5678; Fixture.server1234]))
    by evaluate.
  split; [exact E |].
  destruct (C5_at_most_two_plans Fixture.reports weights) as (_ & H).
  destruct (H _ _ E) as (Hlen & H2 & _).
  split; [exact Hlen |].
  destruct (H2 eq_refl) as (most & _ & _ & _ & _ & _ & _ & _ & _ & Hsrc).
  now exists most.
Defined.

(** C9.  After a call the array holds the same server reports as before,
    each unchanged: it is the input itself on every path but the split
    path, where it is the input sorted by combined load; so every field,
    read over the fleet, has the same values as before. *)
Theorem C9_only_the_order_of_servers_changes
    (servers : list ServerReport) (w : Weights) :
  let after := snd (slicerLoadBalancer servers w) in
  Permutation servers after /\
  (after = servers \/
   after = JS.sort (byCombinedLoad w) servers /\
   exists most least k,
     selectMostAndLeast servers w = (Some most, Some least) /\
     imbalanced most least w = true /\
     selectKeyRangeToMove (key_ranges most) w = Some k /\
     shouldSplitKeyRange k least = true) /\
  (forall (X : Type) (field : ServerReport -> X),
     Permutation (map field servers) (map field after)).
Proof.
  intros after.
  assert (H : after = servers \/
              after = JS.sort (byCombinedLoad w) servers /\
              exists most least k,
                selectMostAndLeast servers w = (Some most, Some least) /\
                imbalanced most least w = true /\
                selectKeyRangeToMove (key_ranges most) w = Some k /\
                shouldSplitKeyRange k least = true).
  { subst after.
    destruct (slicerLoadBalancer_path servers w); cbn [snd]; auto.
    right. split; [reflexivity | eauto 10]. }
  assert (Hp : Permutation servers after).
  { destruct H as [-> | [-> _]]; [apply Permutation_refl | apply sort_perm]. }
  split; [exact Hp | split; [exact H |]].
  intros X field. apply Permutation_map, Hp.
Qed.

(** The reordering is real: on the reference fixture the caller's array
    comes back in the other order. *)
Example fixture_array_is_reordered :
  snd (slicerLoadBalancer Fixture.reports weights) =
    [Fixture.server5678; Fixture.server1234] /\
  Fixture.reports = [Fixture.server1234; Fixture.server5678].
Proof. split; evaluate. Qed.

(** ** The order on keys *)

Ltac code_units :=
  repeat match goal with
  | |- context [(?x <? ?y)%N] => destruct (N.ltb_spec x y)
  | |- context [(?x =? ?y)%N] => destruct (N.eqb_spec x y)
  | H : context [(?x <? ?y)%N] |- _ => destruct (N.ltb_spec x y)
  | H : context [(?x =? ?y)%N] |- _ => destruct (N.eqb_spec x y)
  end;
  cbn [orb andb] in *; subst; try discriminate; try lia.

Lemma ltb_irrefl (a : JS.string) : JS.ltb a a = false.
Proof.
  induction a as [| x a IH]; cbn [JS.ltb]; [reflexivity |].
  code_units. exact IH.
Qed.

Lemma ltb_trans (a b c : JS.string) :
  JS.ltb a b = true -> JS.ltb b c = true -> JS.ltb a c = true.
Proof.
  revert b c. induction a as [| x a IH]; intros [| y b] [| z c];
    cbn [JS.ltb]; try discriminate; try reflexivity.
  intros Hab Hbc. code_units; try reflexivity. now apply IH with b.
Qed.

Lemma ltb_connected (a b : JS.string) :
  JS.ltb a b = false -> JS.ltb b a = false -> a = b.
Proof.
  revert b. induction a as [| x a IH]; intros [| y b]; cbn [JS.ltb];
    try discriminate; try reflexivity.
  intros Hab Hba. code_units. f_equal. now apply IH.
Qed.

Lemma leb_ltb_trans (a b c : JS.string) :
  JS.leb a b = true -> JS.ltb b c = true -> JS.ltb a c = true.
Proof.
  unfold JS.leb. rewrite negb_true_iff. intros Hba Hbc.
  destruct (JS.ltb a b) eqn:Hab.
  - now apply ltb_trans with b.
  - now rewrite (ltb_connected a b Hab Hba).
Qed.

Lemma ltb_leb_trans (a b c : JS.string) :
  JS.ltb a b = true -> JS.leb b c = true -> JS.ltb a c = true.
Proof.
  unfold JS.leb. rewrite negb_true_iff. intros Hab Hcb.
  destruct (JS.ltb b c) eqn:Hbc.
  - now apply ltb_trans with b.
  - now rewrite <- (ltb_connected b c Hbc Hcb).
Qed.

Lemma ltb_leb_weak (a b : JS.string) :
  JS.ltb a b = true -> JS.leb a b = true.
Proof.
  unfold JS.leb. rewrite negb_true_iff. intros Hab.
  destruct (JS.ltb b a) eqn:Hba; [| reflexivity].
  pose proof (ltb_trans _ _ _ Hab Hba) as H. now rewrite ltb_irrefl in H.
Qed.

Lemma leb_trans (a b c : JS.string) :
  JS.leb a b = true -> JS.leb b c = true -> JS.leb a c = true.
Proof.
  intros Hab Hbc. unfold JS.leb. rewrite negb_true_iff.
  destruct (JS.ltb c a) eqn:Hca; [| reflexivity].
  pose proof (ltb_leb_trans _ _ _ Hca Hab) as Hcb.
  unfold JS.leb in Hbc. now rewrite Hcb in Hbc.
Qed.

(** The two halves always cover the original interval. *)
Lemma halves_cover (s mid e x : JS.string) :
  in_closed s e x -> in_half_open s mid x \/ in_closed mid e x.
Proof.
  intros [Hs He]. destruct (JS.ltb x mid) eqn:Hm.
  - left. now split.
  - right. split; [| exact He]. unfold JS.leb. now rewrite Hm.
Qed.

(** They stay inside it when the midpoint lies between the boundaries. *)
Lemma halves_within (s mid e x : JS.string) :
  JS.leb s mid = true -> JS.leb mid e = true ->
  in_half_open s mid x \/ in_closed mid e x -> in_closed s e x.
Proof.
  intros Hsm Hme [[Hs Hx] | [Hm He]]; split; try assumption.
  - apply ltb_leb_weak. now apply ltb_leb_trans with mid.
  - now apply leb_trans with mid.
Qed.

(** ** Splitting a range (C3, C4) *)

Lemma calculateMidKey_first_chars (startKey endKey : JS.string) (a b : N) :
  JS.wf_string startKey -> JS.wf_string endKey ->
  JS.charCodeAt0 startKey = Some a -> JS.charCodeAt0 endKey = Some b ->
  calculateMidKey startKey endKey = [((a + b) / 2)%N].
Proof.
  intros Hs He Ea Eb. unfold calculateMidKey. rewrite Ea, Eb.
  destruct startKey as [| a' s]; [discriminate | injection Ea as ->].
  destruct endKey as [| b' e]; [discriminate | injection Eb as ->].
  inversion Hs; inversion He; subst.
  unfold JS.fromCharCode. f_equal. apply N.mod_small.
  apply N.Div0.div_lt_upper_bound. lia.
Qed.

(** What [splitKeyRange] builds on a non-empty array. *)
Lemma splitKeyRange_fields (k : KeyRange) (servers : list ServerReport)
    (w : Weights) :
  servers <> [] ->
  exists (sorted0 : ServerReport) (range1 range2 : RoutedKeyRange),
    nth_error (JS.sort (byCombinedLoad w) servers) 0 = Some sorted0 /\
    splitKeyRange k servers w =
      (Returns (range1, range2), JS.sort (byCombinedLoad w) servers) /\
    start_key range1 = start_key k /\
    end_key range1 = calculateMidKey (start_key k) (end_key k) /\
    start_key range2 = calculateMidKey (start_key k) (end_key k) /\
    end_key range2 = end_key k /\
    halved_metrics k range1 /\ halved_metrics k range2 /\
    destination_instance range1 = instance_id sorted0 /\
    destination_instance range2 =
      JS.or (option_map instance_id
               (nth_error (JS.sort (byCombinedLoad w) servers) 1))
            (instance_id sorted0).
Proof.
  intros Hne. unfold splitKeyRange.
  destruct (JS.sort (byCombinedLoad w) servers) as [| s0 r] eqn:E.
  - apply sort_nil_inv in E. contradiction.
  - cbn [nth_error]. eexists s0, _, _.
    split; [reflexivity | split; [reflexivity |]].
    cbn. unfold halved_metrics. cbn. repeat split; reflexivity.
Qed.

(** C3 as the specification states it fails when the second server of
    the sorted array has the empty string as identifier: [||] takes the
    empty string for a missing value, so in this fleet of two range B is
    sent to the least loaded server and not to the second one. *)
Lemma C3_counterexample :
  let second := Fixture.renamed EmptyString Fixture.server1234 in
  let fleet := [second; Fixture.server5678] in
  exists (range1 range2 : RoutedKeyRange),
    splitKeyRange Fixture.hotRange fleet weights =
      (Returns (range1, range2), JS.sort (byCombinedLoad weights) fleet) /\
    List.length fleet = 2%nat /\
    JS.sort (byCombinedLoad weights) fleet = [Fixture.server5678; second] /\
    destination_instance range2 <> instance_id second /\
    destination_instance range2 = instance_id Fixture.server5678 /\
    slicerLoadBalancer fleet weights =
      (Returns [Fixture.mkPlan "a000" "a" EmptyString "server-5678";
                Fixture.mkPlan "a" "a999" EmptyString "server-5678"],
       [Fixture.server5678; second]).
Proof.
  intros second fleet.
  destruct (splitKeyRange_fields Fixture.hotRange fleet weights)
    as (s0 & range1 & range2 & E0 & Er & _ & _ & _ & _ & _ & _ & _ & Ed2);
    [discriminate |].
  assert (Es : JS.sort (byCombinedLoad weights) fleet =
               [Fixture.server5678; second]) by evaluate.
  exists range1, range2.
  split; [exact Er | split; [reflexivity | split; [exact Es |]]].
  rewrite Es in E0, Ed2. injection E0 as <-.
  assert (Ed : destination_instance range2 = instance_id Fixture.server5678)
    by (rewrite Ed2; evaluate).
  split; [| split; [exact Ed | evaluate]].
  rewrite Ed. vm_compute. discriminate.
Qed.

(** C3, amended.  For non-empty boundary keys with first code units [a]
    and [b] the midpoint key is the one-unit string of [(a + b) / 2]
    (floor), range A ends and range B starts there; the array is sorted
    ascending by combined load, range A is sent to its first server, which
    is the first least-loaded server of the fleet, and range B to its
    second server when that server's identifier is not the empty string,
    or to the first when the fleet has a single member. *)
Theorem C3_midpoint_and_destinations
    (k : KeyRange) (servers : list ServerReport) (w : Weights) (a b : N) :
  JS.wf_string (start_key k) -> JS.wf_string (end_key k) ->
  JS.charCodeAt0 (start_key k) = Some a ->
  JS.charCodeAt0 (end_key k) = Some b ->
  servers <> [] ->
  let sorted := JS.sort (byCombinedLoad w) servers in
  let score := fun s => calculateCombinedLoad s w in
  exists (least : ServerReport) (range1 range2 : RoutedKeyRange),
    splitKeyRange k servers w = (Returns (range1, range2), sorted) /\
    end_key range1 = [((a + b) / 2)%N] /\
    start_key range2 = [((a + b) / 2)%N] /\
    Permutation servers sorted /\
    StronglySorted (fun x y => score x <= score y) sorted /\
    nth_error sorted 0 = Some least /\
    first_min score servers least /\
    destination_instance range1 = instance_id least /\
    match nth_error sorted 1 with
    | Some second =>
        (2 <= List.length servers)%nat /\
        (instance_id second <> [] ->
         destination_instance range2 = instance_id second)
    | None =>
        List.length servers = 1%nat /\
        destination_instance range2 = instance_id least
    end.
Proof.
  intros Hs He Ea Eb Hne sorted score.
  destruct (splitKeyRange_fields k servers w Hne)
    as (least & range1 & range2 & E0 & Er & _ & Ee1 & Es2 & _ & _ & _ & Ed1 & Ed2).
  pose proof (calculateMidKey_first_chars _ _ a b Hs He Ea Eb) as Em.
  exists least, range1, range2. fold sorted in E0, Er, Ed2.
  split; [exact Er |].
  split; [now rewrite Ee1 |].
  split; [now rewrite Es2 |].
  split; [apply sort_perm |].
  split; [apply sort_ascending |].
  split; [exact E0 |].
  split; [now apply sort_head_first_min |].
  split; [exact Ed1 |].
  destruct (nth_error sorted 1) as [second |] eqn:E1.
  - split.
    + assert (nth_error sorted 1 <> None) as H1 by now rewrite E1.
      apply nth_error_Some in H1.
      unfold sorted in H1. rewrite sort_length in H1. lia.
    + intros Hid. rewrite Ed2. cbn [option_map].
      destruct (instance_id second); [contradiction | reflexivity].
  - split; [| now rewrite Ed2].
    apply nth_error_None in E1.
    assert (nth_error sorted 0 <> None) as H0 by now rewrite E0.
    apply nth_error_Some in H0.
    unfold sorted in E1, H0. rewrite sort_length in E1, H0. lia.
Qed.

Lemma C3_witness :
  JS.wf_string (start_key Fixture.hotRange) /\
  JS.wf_string (end_key Fixture.hotRange) /\
  exists (least second : ServerReport) (range1 range2 : RoutedKeyRange),
    splitKeyRange Fixture.hotRange Fixture.reports weights =
      (Returns (range1, range2),
       JS.sort (byCombinedLoad weights) Fixture.reports) /\
    end_key range1 = JS.str "a" /\
    start_key range2 = JS.str "a" /\
    destination_instance range1 = instance_id least /\
    nth_error (JS.sort (byCombinedLoad weights) Fixture.reports) 1
      = Some second /\
    destination_instance range2 = instance_id second.
Proof.
  assert (Hs : JS.wf_string (start_key Fixture.hotRange))
    by (repeat constructor).
  assert (He : JS.wf_string (end_key Fixture.hotRange))
    by (repeat constructor).
  repeat (split; [assumption |]).
  destruct (C3_midpoint_and_destinations
              Fixture.hotRange Fixture.reports weights 97 97
              Hs He eq_refl eq_refl)
    as (least & range1 & range2 & Er & Ee & Es & _ & _ & _ & _ & Ed1 & Ed2).
  - discriminate.
  - cbv zeta in Ed2.
    assert (E1 : nth_error (JS.sort (byCombinedLoad weights) Fixture.reports) 1
                 = Some Fixture.server1234) by evaluate.
    rewrite E1 in Ed2. destruct Ed2 as [_ Ed2].
    exists least, Fixture.server1234, range1, range2.
    repeat split; try assumption. apply Ed2. discriminate.
Defined.

(** With an empty key the midpoint is the code unit zero. *)
Example calculateMidKey_empty_key :
  calculateMidKey [] (JS.str "z") = [0%N] /\
  calculateMidKey (JS.str "a") [] = [0%N].
Proof. split; evaluate. Qed.

(** C4 as the specification states it fails on the reference fixture: the
    midpoint of [a000]-[a999] is [a], which sorts before [a000], so the key
    [a] lies in range B but not in the original range. *)
Lemma C4_counterexample :
  exists (range1 range2 : RoutedKeyRange),
    splitKeyRange Fixture.hotRange Fixture.reports weights =
      (Returns (range1, range2),
       JS.sort (byCombinedLoad weights) Fixture.reports) /\
    JS.leb (start_key Fixture.hotRange) (end_key Fixture.hotRange) = true /\
    ~ split_unions_back Fixture.hotRange range1 range2.
Proof.
  destruct (splitKeyRange_fields Fixture.hotRange Fixture.reports weights)
    as (s0 & range1 & range2 & _ & Er & _ & _ & Es2 & Ee2 & _);
    [discriminate |].
  exists range1, range2. split; [exact Er | split; [evaluate |]].
  intros H. specialize (H (JS.str "a")). destruct H as [H _].
  rewrite Es2, Ee2 in H.
  assert (Hin : in_closed
                  (calculateMidKey (start_key Fixture.hotRange)
                     (end_key Fixture.hotRange))
                  (end_key Fixture.hotRange) (JS.str "a"))
    by (split; evaluate).
  destruct (H (or_intror Hin)) as [Hlo _].
  vm_compute in Hlo. discriminate Hlo.
Qed.

(** C4, amended.  On a non-empty array the split returns exactly two
    ranges; each carries the four metrics of the original divided by two;
    range A runs from the original start to the midpoint and range B from
    the midpoint to the original end; every key of the original interval
    lies in one of the two; and when the midpoint lies between the two
    boundaries their union is the original interval. *)
Theorem C4_split_halves_metrics_and_chains_at_midpoint
    (k : KeyRange) (servers : list ServerReport) (w : Weights) :
  servers <> [] ->
  let midKey := calculateMidKey (start_key k) (end_key k) in
  exists (range1 range2 : RoutedKeyRange),
    splitKeyRange k servers w =
      (Returns (range1, range2), JS.sort (byCombinedLoad w) servers) /\
    halved_metrics k range1 /\ halved_metrics k range2 /\
    start_key range1 = start_key k /\ end_key range1 = midKey /\
    start_key range2 = midKey /\ end_key range2 = end_key k /\
    (forall x,
       in_closed (start_key k) (end_key k) x ->
       in_half_open (start_key range1) (end_key range1) x \/
       in_closed (start_key range2) (end_key range2) x) /\
    (JS.leb (start_key k) midKey = true ->
     JS.leb midKey (end_key k) = true ->
     split_unions_back k range1 range2).
Proof.
  intros Hne midKey.
  destruct (splitKeyRange_fields k servers w Hne)
    as (s0 & range1 & range2 & _ & Er & Es1 & Ee1 & Es2 & Ee2 & Hm1 & Hm2 & _).
  fold midKey in Ee1, Es2.
  exists range1, range2.
  repeat (split; [assumption |]).
  split.
  - intros x Hx. rewrite Es1, Ee1, Es2, Ee2. now apply halves_cover.
  - intros Hlo Hhi x. rewrite Es1, Ee1, Es2, Ee2. split.
    + now apply halves_within.
    + now apply halves_cover.
Qed.

Lemma C4_witness :
  JS.leb (start_key Fixture.wideRange) (JS.str "b") = true /\
  JS.leb (JS.str "b") (end_key Fixture.wideRange) = true /\
  exists (range1 range2 : RoutedKeyRange),
    splitKeyRange Fixture.wideRange Fixture.reports weights =
      (Returns (range1, range2),
       JS.sort (byCombinedLoad weights) Fixture.reports) /\
    end_key range1 = JS.str "b" /\
    split_unions_back Fixture.wideRange range1 range2.
Proof.
  split; [evaluate | split; [evaluate |]].
  destruct (C4_split_halves_metrics_and_chains_at_midpoint
              Fixture.wideRange Fixture.reports weights)
    as (range1 & range2 & Er & _ & _ & _ & Ee & _ & _ & _ & Hu).
  - discriminate.
  - exists range1, range2. split; [exact Er | split; [exact Ee |]].
    apply Hu; evaluate.
Defined.

(** ** The reference fixture (C6, C10) *)

(** C6.  On the two-server fixture: server-1234 is most and server-5678
    least loaded, the threshold triggers, the hot range is [a000]-[a999],
    its processing load projects server-5678 to [5500 > 4000], the range is
    split at the key [a], the sorted fleet is server-5678 then server-1234,
    and the result is the two plans [(a000, a, 1234, 5678)] and
    [(a, a999, 1234, 1234)]. *)
Theorem C6_reference_fixture :
  selectMostAndLeast Fixture.reports weights =
    (Some Fixture.server1234, Some Fixture.server5678) /\
  imbalanced Fixture.server1234 Fixture.server5678 weights = true /\
  selectKeyRangeToMove (key_ranges Fixture.server1234) weights =
    Some Fixture.hotRange /\
  total_request_processing_load Fixture.server5678 +
    request_processing_load Fixture.hotRange == 5500 /\
  max_cpu_capacity Fixture.server5678 = 4000 /\
  shouldSplitKeyRange Fixture.hotRange Fixture.server5678 = true /\
  calculateMidKey (start_key Fixture.hotRange) (end_key Fixture.hotRange) =
    JS.str "a" /\
  JS.sort (byCombinedLoad weights) Fixture.reports =
    [Fixture.server5678; Fixture.server1234] /\
  slicerLoadBalancer Fixture.reports weights =
    (Returns [Fixture.mkPlan "a000" "a" "server-1234" "server-5678";
              Fixture.mkPlan "a" "a999" "server-1234" "server-1234"],
     [Fixture.server5678; Fixture.server1234]).
Proof.
  split; [evaluate |]. split; [evaluate |]. split; [evaluate |].
  split; [evaluate |]. split; [evaluate |]. split; [evaluate |].
  split; [evaluate |]. split; evaluate.
Qed.

(** C10.  There is a well-formed input, the reference fixture, whose
    ranges all have [start_key <= end_key] and whose hot range has the keys
    [a000] and [a999], for which the range-A plan ends at the midpoint [a],
    a key smaller than the plan's start key [a000]. *)
Theorem C10_range_A_plan_ends_before_it_starts :
  exists (servers : list ServerReport) (w : Weights)
         (planA planB : MigrationPlan.t) (after : list ServerReport),
    wf_weights w /\ Forall wf_server servers /\
    Forall (fun s =>
              Forall (fun k => JS.leb (start_key k) (end_key k) = true)
                (key_ranges s)) servers /\
    slicerLoadBalancer servers w = (Returns [planA; planB], after) /\
    MigrationPlan.start_key planA = JS.str "a000" /\
    MigrationPlan.end_key planA = JS.str "a" /\
    JS.ltb (MigrationPlan.end_key planA) (MigrationPlan.start_key planA) = true /\
    JS.leb (MigrationPlan.start_key planA) (MigrationPlan.end_key planA) = false.
Proof.
  exists Fixture.reports, weights,
    (Fixture.mkPlan "a000" "a" "server-1234" "server-5678"),
    (Fixture.mkPlan "a" "a999" "server-1234" "server-1234"),
    [Fixture.server5678; Fixture.server1234].
  split; [exact wf_weights_default | split; [exact wf_server_fixture |]].
  split; [repeat constructor |].
  split; [evaluate |]. repeat split; evaluate.
Qed.

(** ** The scorer (C7) *)

(** C7.  In both variants the score of a server and the score of a key
    range are the weighted sum [spec_score] of their four metrics (the
    fixed-weight variant with the weights [1], [0.5], [0.2], [0.3]), so a
    server and a range with the same metrics have the same score; and when
    a weight is zero the score does not depend on its metric. *)
Theorem C7_one_weighted_sum (s : ServerReport) (k : KeyRange) (w : Weights) :
  calculateCombinedLoad s w =
    spec_score (total_request_processing_load s) (total_storage_utilization s)
      (total_data_access_frequency s) (total_memory_usage s) w /\
  calculateKeyRangeLoad k w =
    spec_score (request_processing_load k) (storage_utilization k)
      (data_access_frequency k) (memory_usage k) w /\
  Fixed.calculateCombinedLoad s ==
    spec_score (total_request_processing_load s) (total_storage_utilization s)
      (total_data_access_frequency s) (total_memory_usage s) Fixed.weights /\
  Fixed.calculateKeyRangeLoad k ==
    spec_score (request_processing_load k) (storage_utilization k)
      (data_access_frequency k) (memory_usage k) Fixed.weights /\
  (total_request_processing_load s = request_processing_load k ->
   total_storage_utilization s = storage_utilization k ->
   total_data_access_frequency s = data_access_frequency k ->
   total_memory_usage s = memory_usage k ->
   calculateCombinedLoad s w = calculateKeyRangeLoad k w /\
   Fixed.calculateCombinedLoad s = Fixed.calculateKeyRangeLoad k) /\
  (forall cpu cpu' storage storage' access access' memory memory',
     (cpuWeight w == 0 ->
      spec_score cpu storage access memory w ==
      spec_score cpu' storage access memory w) /\
     (storageWeight w == 0 ->
      spec_score cpu storage access memory w ==
      spec_score cpu storage' access memory w) /\
     (accessFrequencyWeight w == 0 ->
      spec_score cpu storage access memory w ==
      spec_score cpu storage access' memory w) /\
     (memoryWeight w == 0 ->
      spec_score cpu storage access memory w ==
      spec_score cpu storage access memory' w)).
Proof.
  split; [reflexivity | split; [reflexivity |]].
  split; [unfold Fixed.calculateCombinedLoad, spec_score; cbn; ring |].
  split; [unfold Fixed.calculateKeyRangeLoad, spec_score; cbn; ring |].
  split.
  - intros Ec Es Ea Em.
    unfold calculateCombinedLoad, calculateKeyRangeLoad,
      Fixed.calculateCombinedLoad, Fixed.calculateKeyRangeLoad.
    now rewrite Ec, Es, Ea, Em.
  - intros cpu cpu' storage storage' access access' memory memory'.
    unfold spec_score. repeat split; intros ->; ring.
Qed.

Lemma C7_witness :
  let w := {| cpuWeight := 0; memoryWeight := 0.5; storageWeight := 0.5;
              accessFrequencyWeight := 0.1; migrationPenalty := 1 |} in
  spec_score 4450 800 15500 2500 w == spec_score 0 800 15500 2500 w.
Proof.
  intros w.
  destruct (C7_one_weighted_sum Fixture.server1234 Fixture.hotRange w)
    as (_ & _ & _ & _ & _ & H).
  destruct (H 4450 0 800 800 15500 15500 2500 2500) as (Hcpu & _).
  apply Hcpu. reflexivity.
Defined.

(** Outside the data model the detector can fire on a single server: with
    a negative score, a difference of zero is above a tenth of the score. *)
Example negative_load_single_server :
  imbalanced Fixture.negativeServer Fixture.negativeServer weights = true /\
  slicerLoadBalancer [Fixture.negativeServer] weights =
    (Returns [createMigrationPlan (Fixture.mkRange "a" "c" 0 0 (-10) 0)
                (JS.str "server-0000") (JS.str "server-0000")],
     [Fixture.negativeServer]).
Proof. split; evaluate. Qed.

(** ** Comparisons respect equality of numbers *)

Lemma lt_compat (x x' y y' : Q) :
  x == x' -> y == y' -> JS.lt x y = JS.lt x' y'.
Proof. intros Hx Hy. unfold JS.lt. now rewrite Hx, Hy. Qed.

Lemma gt_compat (x x' y y' : Q) :
  x == x' -> y == y' -> JS.gt x y = JS.gt x' y'.
Proof. intros Hx Hy. unfold JS.gt. now apply lt_compat. Qed.

Lemma fold_left_pointwise (A B : Type) (f g : A -> B -> A) (l : list B) (a : A) :
  (forall x y, f x y = g x y) -> fold_left f l a = fold_left g l a.
Proof.
  intros H. revert a. induction l as [| y l IH]; intros a; cbn.
  - reflexivity.
  - now rewrite H, IH.
Qed.

(** The sort depends on the comparator only through the sign test it
    makes. *)
Lemma sort_pointwise (A : Type) (cmp cmp' : A -> A -> Q) (l : list A) :
  (forall a b, JS.lt (cmp a b) 0 = JS.lt (cmp' a b) 0) ->
  JS.sort cmp l = JS.sort cmp' l.
Proof.
  intros H.
  assert (Hi : forall x r, JS.insert cmp x r = JS.insert cmp' x r).
  { intros x r. induction r as [| y r IH]; cbn; [reflexivity |].
    now rewrite H, IH. }
  induction l as [| x l IH]; cbn; [reflexivity |].
  now rewrite IH, Hi.
Qed.

(** ** The fixed-weight variant is the engine at its built-in weights *)

Lemma fixed_server_score (s : ServerReport) :
  Fixed.calculateCombinedLoad s == calculateCombinedLoad s Fixed.weights.
Proof.
  unfold Fixed.calculateCombinedLoad, calculateCombinedLoad. cbn. ring.
Qed.

Lemma fixed_range_score (k : KeyRange) :
  Fixed.calculateKeyRangeLoad k == calculateKeyRangeLoad k Fixed.weights.
Proof.
  unfold Fixed.calculateKeyRangeLoad, calculateKeyRangeLoad. cbn. ring.
Qed.

Lemma fixed_selectMostAndLeast (servers : list ServerReport) :
  FixedEngine.selectMostAndLeast servers =
  selectMostAndLeast servers Fixed.weights.
Proof.
  unfold FixedEngine.selectMostAndLeast, selectMostAndLeast.
  apply fold_left_pointwise. intros [most least] s.
  unfold FixedEngine.selectStep, selectStep.
  destruct most as [m |], least as [n |];
    rewrite ?(gt_compat _ _ _ _ (fixed_server_score s) (fixed_server_score m)),
            ?(lt_compat _ _ _ _ (fixed_server_score s) (fixed_server_score n));
    reflexivity.
Qed.

Lemma fixed_selectKeyRangeToMove (ranges : list KeyRange) :
  FixedEngine.selectKeyRangeToMove ranges =
  selectKeyRangeToMove ranges Fixed.weights.
Proof.
  unfold FixedEngine.selectKeyRangeToMove, selectKeyRangeToMove.
  destruct (nth_error ranges 0); [| reflexivity].
  f_equal. apply fold_left_pointwise. intros prev current.
  now rewrite (gt_compat _ _ _ _ (fixed_range_score current)
                 (fixed_range_score prev)).
Qed.

Lemma fixed_imbalanced (most least : ServerReport) :
  FixedEngine.imbalanced most least = imbalanced most least Fixed.weights.
Proof.
  unfold FixedEngine.imbalanced, imbalanced. apply gt_compat.
  - now rewrite !fixed_server_score.
  - now rewrite fixed_server_score.
Qed.

Lemma fixed_splitKeyRange (k : KeyRange) (servers : list ServerReport) :
  FixedEngine.splitKeyRange k servers = splitKeyRange k servers Fixed.weights.
Proof.
  unfold FixedEngine.splitKeyRange, splitKeyRange.
  replace (JS.sort FixedEngine.byCombinedLoad servers)
    with (JS.sort (byCombinedLoad Fixed.weights) servers); [reflexivity |].
  apply sort_pointwise. intros a b.
  unfold FixedEngine.byCombinedLoad, byCombinedLoad. apply lt_compat.
  - now rewrite !fixed_server_score.
  - reflexivity.
Qed.

(** X2.  The fixed-weight [slicerLoadBalancer] returns, and leaves in the
    array, exactly what the parameterised one does at the weights
    [cpu = 1], [storage = 0.5], [access = 0.2], [memory = 0.3]. *)
Theorem fixed_variant_is_the_engine_at_its_weights
    (servers : list ServerReport) :
  FixedEngine.slicerLoadBalancer servers =
  slicerLoadBalancer servers Fixed.weights.
Proof.
  unfold FixedEngine.slicerLoadBalancer, slicerLoadBalancer.
  rewrite fixed_selectMostAndLeast.
  destruct (selectMostAndLeast servers Fixed.weights) as [[most |] [least |]];
    try reflexivity.
  rewrite fixed_imbalanced, fixed_selectKeyRangeToMove.
  destruct (imbalanced most least Fixed.weights); [| reflexivity].
  destruct (selectKeyRangeToMove (key_ranges most) Fixed.weights) as [k |];
    [| reflexivity].
  now rewrite fixed_splitKeyRange.
Qed.

(** ** The hot range *)

Section FirstGreatest.
Variable A : Type.
Variable f : A -> Q.

Lemma first_greatest_bound (l : list A) (m x : A) :
  first_greatest f l m -> In x l -> f x <= f m.
Proof.
  intros (l1 & l2 & -> & H1 & H2) Hx.
  apply in_app_or in Hx. destruct Hx as [Hx | [<- | Hx]].
  - apply Qlt_le_weak, H1, Hx.
  - apply Qle_refl.
  - apply H2, Hx.
Qed.

Lemma first_greatest_In (l : list A) (m : A) : first_greatest f l m -> In m l.
Proof.
  intros (l1 & l2 & -> & _). apply in_or_app. right. now left.
Qed.

Lemma first_greatest_fold (l pre : list A) (m : A) :
  first_greatest f pre m ->
  first_greatest f (pre ++ l)
    (fold_left (fun prev current =>
                  if JS.gt (f current) (f prev) then current else prev) l m).
Proof.
  revert pre m. induction l as [| x l IH]; intros pre m Hm; cbn [fold_left].
  - now rewrite app_nil_r.
  - replace (pre ++ x :: l) with ((pre ++ [x]) ++ l)
      by (rewrite <- app_assoc; reflexivity).
    apply IH. destruct (JS.gt (f x) (f m)) eqn:E.
    + apply gt_true in E. exists pre, []. split; [reflexivity | split].
      * intros y Hy. apply Qle_lt_trans with (f m); [| exact E].
        now apply first_greatest_bound with pre.
      * intros y [].
    + apply gt_false in E. destruct Hm as (l1 & l2 & -> & H1 & H2).
      exists l1, (l2 ++ [x]). split; [now rewrite <- app_assoc | split].
      * exact H1.
      * intros y Hy. apply in_app_or in Hy. destruct Hy as [Hy | [<- | []]].
        -- apply H2, Hy.
        -- exact E.
Qed.

End FirstGreatest.

(** On a non-empty list the fold ends on the first heaviest range. *)
Lemma selectKeyRangeToMove_first_greatest (ranges : list KeyRange)
    (w : Weights) :
  ranges <> [] ->
  exists k,
    selectKeyRangeToMove ranges w = Some k /\
    first_greatest (fun r => calculateKeyRangeLoad r w) ranges k.
Proof.
  destruct ranges as [| k0 rest]; [congruence | intros _].
  unfold selectKeyRangeToMove. cbn [nth_error]. eexists. split; [reflexivity |].
  cbn [fold_left].
  assert (E : JS.gt (calculateKeyRangeLoad k0 w) (calculateKeyRangeLoad k0 w)
              = false) by (apply gt_false, Qle_refl).
  rewrite E.
  apply (first_greatest_fold KeyRange (fun r => calculateKeyRangeLoad r w)
           rest [k0] k0).
  exists [], []. repeat split; intros x [].
Qed.

Lemma selected_range_is_owned (ranges : list KeyRange) (w : Weights)
    (k : KeyRange) :
  selectKeyRangeToMove ranges w = Some k ->
  first_greatest (fun r => calculateKeyRangeLoad r w) ranges k.
Proof.
  intros Ek.
  destruct (selectKeyRangeToMove_first_greatest ranges w) as (k0 & Ek0 & Hg).
  - intros ->. discriminate Ek.
  - rewrite Ek in Ek0. now injection Ek0 as <-.
Qed.

(** X3.  The range picked for migration is the first range of the list
    with the greatest load, and no range is picked from an empty list. *)
Theorem hot_range_is_the_first_heaviest (ranges : list KeyRange) (w : Weights) :
  (ranges = [] -> selectKeyRangeToMove ranges w = None) /\
  (ranges <> [] ->
   exists k,
     selectKeyRangeToMove ranges w = Some k /\
     first_greatest (fun r => calculateKeyRangeLoad r w) ranges k).
Proof.
  split.
  - now intros ->.
  - apply selectKeyRangeToMove_first_greatest.
Qed.

Lemma hot_range_witness :
  key_ranges Fixture.server1234 <> [] /\
  exists k,
    selectKeyRangeToMove (key_ranges Fixture.server1234) weights = Some k /\
    first_greatest (fun r => calculateKeyRangeLoad r weights)
      (key_ranges Fixture.server1234) k.
Proof.
  assert (H : key_ranges Fixture.server1234 <> []) by discriminate.
  split; [exact H |].
  apply (hot_range_is_the_first_heaviest
           (key_ranges Fixture.server1234) weights).
  exact H.
Defined.

(** ** What a returned plan names *)

(** What a returning split has built. *)
Lemma splitKeyRange_inv (k : KeyRange) (servers : list ServerReport)
    (w : Weights) (range1 range2 : RoutedKeyRange) (after : list ServerReport) :
  splitKeyRange k servers w = (Returns (range1, range2), after) ->
  exists sorted0,
    after = JS.sort (byCombinedLoad w) servers /\
    nth_error after 0 = Some sorted0 /\
    start_key range1 = start_key k /\
    end_key range1 = calculateMidKey (start_key k) (end_key k) /\
    start_key range2 = calculateMidKey (start_key k) (end_key k) /\
    end_key range2 = end_key k /\
    destination_instance range1 = instance_id sorted0 /\
    destination_instance range2 =
      JS.or (option_map instance_id (nth_error after 1)) (instance_id sorted0).
Proof.
  unfold splitKeyRange.
  destruct (nth_error (JS.sort (byCombinedLoad w) servers) 0) as [s0 |] eqn:E0;
    [| discriminate].
  intros [= <- <- <-]. exists s0. cbn. repeat split. exact E0.
Qed.

Lemma sorted_member (servers : list ServerReport) (w : Weights) (i : nat)
    (s : ServerReport) :
  nth_error (JS.sort (byCombinedLoad w) servers) i = Some s -> In s servers.
Proof.
  intros E. apply Permutation_in with (JS.sort (byCombinedLoad w) servers).
  - apply Permutation_sym, sort_perm.
  - eapply nth_error_In, E.
Qed.

(** The value of [a?.instance_id || b] is the identifier of [a] or of
    [b]. *)
Lemma or_instance_id (a : option ServerReport) (b : ServerReport) :
  (exists s, a = Some s /\ JS.or (option_map instance_id a) (instance_id b)
                           = instance_id s) \/
  JS.or (option_map instance_id a) (instance_id b) = instance_id b.
Proof.
  destruct a as [s |]; cbn; [| now right].
  destruct (instance_id s) eqn:E; [now right |].
  left. exists s. now rewrite E.
Qed.

(** When the call throws. *)
Lemma throws_iff (servers : list ServerReport) (w : Weights) :
  fst (slicerLoadBalancer servers w) = TypeError <->
  exists most least,
    selectMostAndLeast servers w = (Some most, Some least) /\
    imbalanced most least w = true /\ key_ranges most = [].
Proof.
  split.
  - intros Ht. destruct (slicerLoadBalancer_path servers w);
      cbn [fst] in Ht; try discriminate. eauto.
  - intros (most & least & E & Ei & Ek). unfold slicerLoadBalancer.
    rewrite E, Ei, Ek. reflexivity.
Qed.

(** X4.  The call throws exactly when the threshold triggers on a most
    loaded server that owns no key range; in particular it returns
    whenever every server owns at least one range. *)
Theorem throws_exactly_on_a_most_loaded_server_without_ranges
    (servers : list ServerReport) (w : Weights) :
  (fst (slicerLoadBalancer servers w) = TypeError <->
   exists most least,
     selectMostAndLeast servers w = (Some most, Some least) /\
     imbalanced most least w = true /\ key_ranges most = []) /\
  (Forall (fun s => key_ranges s <> []) servers ->
   exists plans after, slicerLoadBalancer servers w = (Returns plans, after)).
Proof.
  split; [apply throws_iff |].
  intros Hall.
  destruct (slicerLoadBalancer servers w) as [[plans |] after] eqn:Er;
    [eauto |].
  exfalso.
  assert (Ht : fst (slicerLoadBalancer servers w) = TypeError)
    by now rewrite Er.
  apply throws_iff in Ht. destruct Ht as (most & least & E & _ & Ek).
  apply selectMostAndLeast_sound in E. destruct E as [Hm _].
  apply first_max_In in Hm. rewrite Forall_forall in Hall.
  now apply (Hall most Hm).
Qed.

Lemma throws_witness :
  Forall (fun s => key_ranges s <> []) Fixture.reports /\
  exists plans after,
    slicerLoadBalancer Fixture.reports weights = (Returns plans, after).
Proof.
  assert (H : Forall (fun s => key_ranges s <> []) Fixture.reports)
    by (repeat constructor; discriminate).
  split; [exact H |].
  apply (throws_exactly_on_a_most_loaded_server_without_ranges
           Fixture.reports weights).
  exact H.
Defined.

(** X5.  Every returned plan is sourced at the most loaded server, and its
    destination is the identifier of a server of the fleet. *)
Theorem plans_name_servers_of_the_fleet
    (servers : list ServerReport) (w : Weights)
    (plans : list MigrationPlan.t) (after : list ServerReport) :
  slicerLoadBalancer servers w = (Returns plans, after) ->
  plans <> [] ->
  exists most least,
    selectMostAndLeast servers w = (Some most, Some least) /\
    In most servers /\
    Forall (fun p =>
              MigrationPlan.source_instance p = instance_id most /\
              In (MigrationPlan.destination_instance p)
                 (map instance_id servers)) plans.
Proof.
  intros Er Hne.
  pose proof (slicerLoadBalancer_path servers w) as P. rewrite Er in P.
  inversion P as [H0 | most least E Ei | most least E Ei Hk
                  | most least k range1 range2 E Ei Ek Es Esp
                  | most least k E Ei Ek Es Ec]; subst; try congruence.
  - destruct (selectMostAndLeast_sound _ _ E) as [Hm _].
    apply first_max_In in Hm.
    exists most, least. split; [exact E | split; [exact Hm |]].
    destruct (splitKeyRange_inv _ _ _ _ _ _ Esp)
      as (s0 & _ & E0 & _ & _ & _ & _ & Ed1 & Ed2).
    assert (H0 : In (instance_id s0) (map instance_id servers))
      by (apply in_map; eapply sorted_member, E0).
    constructor; [| constructor; [| constructor]]; cbn; split;
      try reflexivity.
    + now rewrite Ed1.
    + rewrite Ed2.
      destruct (or_instance_id
                  (nth_error (JS.sort (byCombinedLoad w) servers) 1) s0)
        as [(s1 & E1 & ->) | ->]; [| exact H0].
      apply in_map. eapply sorted_member, E1.
  - destruct (selectMostAndLeast_sound _ _ E) as [Hm Hn].
    apply first_max_In in Hm. apply first_min_In in Hn.
    exists most, least. split; [exact E | split; [exact Hm |]].
    constructor; [| constructor]. cbn. split; [reflexivity |].
    now apply in_map.
Qed.

Lemma plans_name_servers_witness :
  exists most : ServerReport,
    In most Fixture.reports /\
    Forall (fun p =>
              MigrationPlan.source_instance p = instance_id most /\
              In (MigrationPlan.destination_instance p)
                 (map instance_id Fixture.reports))
      [Fixture.mkPlan "a000" "a" "server-1234" "server-5678";
       Fixture.mkPlan "a" "a999" "server-1234" "server-1234"].
Proof.
  assert (E : slicerLoadBalancer Fixture.reports weights =
              (Returns
                 [Fixture.mkPlan "a000" "a" "server-1234" "server-5678";
                  Fixture.mkPlan "a" "a999" "server-1234" "server-1234"],
               [Fixture.server5678; Fixture.server1234]))
    by evaluate.
  destruct (plans_name_servers_of_the_fleet _ _ _ _ E)
    as (most & least & _ & Hm & Hall); [discriminate |].
  exists most. split; [exact Hm | exact Hall].
Defined.

(** ** Where the plans go *)

(** Above the threshold, with a non-negative score at the top, the least
    loaded server is strictly lighter than the most loaded one. *)
Lemma imbalanced_strict (most least : ServerReport) (w : Weights) :
  0 <= calculateCombinedLoad most w ->
  imbalanced most least w = true ->
  calculateCombinedLoad least w < calculateCombinedLoad most w.
Proof.
  intros H0 Hi. apply imbalanced_true in Hi. lra.
Qed.

(** X6.  When a call returns two plans, the first one sends range A to
    the very server the selection loop found least loaded, and that server
    is now first in the array. *)
Theorem split_sends_range_A_to_the_least_loaded_server
    (servers : list ServerReport) (w : Weights)
    (planA planB : MigrationPlan.t) (after : list ServerReport) :
  slicerLoadBalancer servers w = (Returns [planA; planB], after) ->
  exists most least,
    selectMostAndLeast servers w = (Some most, Some least) /\
    MigrationPlan.source_instance planA = instance_id most /\
    MigrationPlan.destination_instance planA = instance_id least /\
    nth_error after 0 = Some least.
Proof.
  intros Er.
  pose proof (slicerLoadBalancer_path servers w) as P. rewrite Er in P.
  inversion P as [H0 | most least E Ei | most least E Ei Hk
                  | most least k range1 range2 E Ei Ek Es Esp
                  | most least k E Ei Ek Es Ec]; subst.
  exists most, least.
  destruct (splitKeyRange_inv _ _ _ _ _ _ Esp)
    as (s0 & _ & E0 & _ & _ & _ & _ & Ed1 & _).
  pose proof (sorted_head_is_least_loaded servers w E) as Eh.
  rewrite E0 in Eh. injection Eh as ->.
  repeat split; [exact E | exact Ed1 | exact E0].
Qed.

Lemma split_sends_range_A_witness :
  exists most least,
    selectMostAndLeast Fixture.reports weights = (Some most, Some least) /\
    JS.str "server-1234" = instance_id most /\
    JS.str "server-5678" = instance_id least /\
    nth_error [Fixture.server5678; Fixture.server1234] 0 = Some least.
Proof.
  assert (E : slicerLoadBalancer Fixture.reports weights =
              (Returns
                 [Fixture.mkPlan "a000" "a" "server-1234" "server-5678";
                  Fixture.mkPlan "a" "a999" "server-1234" "server-1234"],
               [Fixture.server5678; Fixture.server1234]))
    by evaluate.
  exact (split_sends_range_A_to_the_least_loaded_server _ _ _ _ _ E).
Defined.

(** X7.  On a well-formed fleet a single returned plan moves a range that
    the most loaded server owns, the heaviest one, to a different server
    of strictly smaller score, and the array is left as it was. *)
Theorem move_goes_to_a_strictly_lighter_server
    (servers : list ServerReport) (w : Weights)
    (plan : MigrationPlan.t) (after : list ServerReport) :
  wf_weights w -> Forall wf_server servers ->
  slicerLoadBalancer servers w = (Returns [plan], after) ->
  exists most least k,
    selectMostAndLeast servers w = (Some most, Some least) /\
    plan = createMigrationPlan k (instance_id most) (instance_id least) /\
    In k (key_ranges most) /\
    (forall r, In r (key_ranges most) ->
       calculateKeyRangeLoad r w <= calculateKeyRangeLoad k w) /\
    calculateCombinedLoad least w < calculateCombinedLoad most w /\
    most <> least /\
    after = servers.
Proof.
  intros Hw Hs Er.
  pose proof (slicerLoadBalancer_path servers w) as P. rewrite Er in P.
  inversion P as [H0 | most least E Ei | most least E Ei Hk
                  | most least k range1 range2 E Ei Ek Es Esp
                  | most least k E Ei Ek Es Ec]; subst.
  exists most, least, k.
  destruct (selectMostAndLeast_sound _ _ E) as [Hm _].
  apply first_max_In in Hm.
  assert (H0 : 0 <= calculateCombinedLoad most w).
  { apply calculateCombinedLoad_nonneg; [exact Hw |].
    rewrite Forall_forall in Hs. apply Hs, Hm. }
  pose proof (imbalanced_strict most least w H0 Ei) as Hlt.
  pose proof (selected_range_is_owned _ _ _ Ek) as Hg.
  repeat split; try assumption.
  - eapply first_greatest_In, Hg.
  - intros r Hr.
    apply (first_greatest_bound KeyRange
             (fun r => calculateKeyRangeLoad r w) (key_ranges most)); assumption.
  - intros ->. lra.
Qed.

Lemma move_goes_to_a_strictly_lighter_server_witness :
  wf_weights weights /\ Forall wf_server Scenario.moveFleet /\
  exists most least k,
    selectMostAndLeast Scenario.moveFleet weights = (Some most, Some least) /\
    Fixture.mkPlan "a000" "a999" "server-1234" "server-5678" =
      createMigrationPlan k (instance_id most) (instance_id least) /\
    In k (key_ranges most) /\
    (forall r, In r (key_ranges most) ->
       calculateKeyRangeLoad r weights <= calculateKeyRangeLoad k weights) /\
    calculateCombinedLoad least weights < calculateCombinedLoad most weights /\
    most <> least /\
    Scenario.moveFleet = Scenario.moveFleet.
Proof.
  assert (Hs : Forall wf_server Scenario.moveFleet)
    by (repeat constructor; vm_compute; discriminate).
  assert (E : slicerLoadBalancer Scenario.moveFleet weights =
              (Returns [Fixture.mkPlan "a000" "a999" "server-1234" "server-5678"],
               Scenario.moveFleet))
    by evaluate.
  split; [exact wf_weights_default | split; [exact Hs |]].
  exact (move_goes_to_a_strictly_lighter_server _ _ _ _
           wf_weights_default Hs E).
Defined.

(** X8.  In a well-formed fleet of two servers a split always leaves range
    B where it is: the sorted array is the least loaded server followed by
    the most loaded one, so the second plan has the most loaded server as
    source and as destination, and the first plan goes to the other
    server. *)
Theorem two_servers_split_keeps_range_B_at_the_source
    (x y : ServerReport) (w : Weights)
    (planA planB : MigrationPlan.t) (after : list ServerReport) :
  wf_weights w -> Forall wf_server [x; y] -> Forall wf_instance_id [x; y] ->
  slicerLoadBalancer [x; y] w = (Returns [planA; planB], after) ->
  exists most least,
    selectMostAndLeast [x; y] w = (Some most, Some least) /\
    after = [least; most] /\
    MigrationPlan.destination_instance planA = instance_id least /\
    MigrationPlan.source_instance planB = instance_id most /\
    MigrationPlan.destination_instance planB = instance_id most.
Proof.
  intros Hw Hs Hid Er.
  pose proof (slicerLoadBalancer_path [x; y] w) as P. rewrite Er in P.
  remember (Returns [planA; planB], after) as result eqn:Eres.
  destruct P as [H0 | most least E Ei | most least E Ei Hk
                 | most least k range1 range2 E Ei Ek Es Esp
                 | most least k E Ei Ek Es Ec]; try discriminate Eres.
  injection Eres as <- <- <-.
  exists most, least.
  destruct (selectMostAndLeast_sound _ _ E) as [Hm _].
  apply first_max_In in Hm.
  assert (H0 : 0 <= calculateCombinedLoad most w).
  { apply calculateCombinedLoad_nonneg; [exact Hw |].
    rewrite Forall_forall in Hs. apply Hs, Hm. }
  pose proof (imbalanced_strict most least w H0 Ei) as Hlt.
  destruct (splitKeyRange_inv _ _ _ _ _ _ Esp)
    as (s0 & _ & E0 & _ & _ & _ & _ & Ed1 & Ed2).
  pose proof (sorted_head_is_least_loaded [x; y] w E) as Eh.
  rewrite E0 in Eh. injection Eh as ->.
  pose proof (sort_perm (byCombinedLoad w) [x; y]) as Hp.
  pose proof (sort_length (byCombinedLoad w) [x; y]) as Hl.
  destruct (JS.sort (byCombinedLoad w) [x; y]) as [| a [| b [| c r]]]
    eqn:Esort; try discriminate Hl.
  injection E0 as ->.
  assert (Hb : b = most).
  { apply (Permutation_in most) in Hp; [| exact Hm].
    destruct Hp as [<- | [<- | []]]; [lra | reflexivity]. }
  subst b. cbn [nth_error option_map] in Ed2.
  assert (Hmid : instance_id most <> []).
  { rewrite Forall_forall in Hid. apply (Hid most Hm). }
  assert (Hor : JS.or (Some (instance_id most)) (instance_id least) =
                instance_id most)
    by (destruct (instance_id most); [congruence | reflexivity]).
  rewrite Hor in Ed2.
  split; [exact E | split; [rewrite <- Esort; reflexivity |]].
  split; [exact Ed1 | split; [reflexivity | exact Ed2]].
Qed.

Lemma two_servers_split_witness :
  wf_weights weights /\ Forall wf_server Fixture.reports /\
  Forall wf_instance_id Fixture.reports /\
  exists most least,
    selectMostAndLeast Fixture.reports weights = (Some most, Some least) /\
    [Fixture.server5678; Fixture.server1234] = [least; most] /\
    JS.str "server-5678" = instance_id least /\
    JS.str "server-1234" = instance_id most /\
    JS.str "server-1234" = instance_id most.
Proof.
  assert (Hid : Forall wf_instance_id Fixture.reports)
    by (repeat constructor; discriminate).
  assert (E : slicerLoadBalancer Fixture.reports weights =
              (Returns
                 [Fixture.mkPlan "a000" "a" "server-1234" "server-5678";
                  Fixture.mkPlan "a" "a999" "server-1234" "server-1234"],
               [Fixture.server5678; Fixture.server1234]))
    by evaluate.
  split; [exact wf_weights_default | split; [exact wf_server_fixture |]].
  split; [exact Hid |].
  exact (two_servers_split_keeps_range_B_at_the_source _ _ _ _ _ _
           wf_weights_default wf_server_fixture Hid E).
Defined.

(** ** The harness score *)

(** The two scans of the selection loop and the two folds of [Math.max]
    and [Math.min] over the scores move together. *)
Lemma extreme_loads_fold (w : Weights) (l : list ServerReport)
    (m n m' n' : ServerReport) :
  fold_left (selectStep w) l (Some m, Some n) = (Some m', Some n') ->
  fold_left (fun a y => if JS.gt y a then y else a)
    (map (fun s => calculateCombinedLoad s w) l) (calculateCombinedLoad m w)
  = calculateCombinedLoad m' w /\
  fold_left (fun a y => if JS.lt y a then y else a)
    (map (fun s => calculateCombinedLoad s w) l) (calculateCombinedLoad n w)
  = calculateCombinedLoad n' w.
Proof.
  revert m n. induction l as [| x l IH]; intros m n; cbn [fold_left map].
  - now intros [= -> ->].
  - cbn [selectStep].
    destruct (JS.gt (calculateCombinedLoad x w) (calculateCombinedLoad m w)),
             (JS.lt (calculateCombinedLoad x w) (calculateCombinedLoad n w));
      apply IH.
Qed.

(** [Math.max] and [Math.min] over the scores of a non-empty fleet are
    the scores of the two servers the selection loop picks. *)
Lemma extreme_loads (servers : list ServerReport) (w : Weights)
    (most least : ServerReport) :
  selectMostAndLeast servers w = (Some most, Some least) ->
  Harness.maxOf (map (fun s => calculateCombinedLoad s w) servers)
    = Some (calculateCombinedLoad most w) /\
  Harness.minOf (map (fun s => calculateCombinedLoad s w) servers)
    = Some (calculateCombinedLoad least w).
Proof.
  destruct servers as [| s l]; [discriminate |].
  unfold selectMostAndLeast. cbn [fold_left selectStep map].
  intros E. destruct (extreme_loads_fold w l s s most least E) as [HM HN].
  unfold Harness.maxOf, Harness.minOf. now rewrite HM, HN.
Qed.

(** X9.  On a non-empty fleet the [maxLoad] and [minLoad] of
    [calculateScore] are the scores of the two servers the engine's
    selection loop picks as most and least loaded, and the score is
    [1 / (1 + maxLoad - minLoad) * 100 - n * migrationPenalty] on those
    two values, in the order the harness computes it. *)
Theorem calculateScore_uses_the_selected_scores
    (servers : list ServerReport) (plans : list MigrationPlan.t) (w : Weights)
    (most least : ServerReport) :
  selectMostAndLeast servers w = (Some most, Some least) ->
  Harness.maxOf (map (fun s => calculateCombinedLoad s w) servers)
    = Some (calculateCombinedLoad most w) /\
  Harness.minOf (map (fun s => calculateCombinedLoad s w) servers)
    = Some (calculateCombinedLoad least w) /\
  Harness.calculateScore servers plans w =
    0 + 1 / (1 + calculateCombinedLoad most w - calculateCombinedLoad least w)
        * 100
    - inject_Z (Z.of_nat (List.length plans)) * migrationPenalty w.
Proof.
  intros E. destruct (extreme_loads servers w most least E) as [HM HN].
  split; [exact HM | split; [exact HN |]].
  unfold Harness.calculateScore. now rewrite HM, HN.
Qed.

Lemma calculateScore_witness :
  selectMostAndLeast Fixture.reports weights =
    (Some Fixture.server1234, Some Fixture.server5678) /\
  Harness.calculateScore Fixture.reports [] weights =
    0 + 1 / (1 + calculateCombinedLoad Fixture.server1234 weights
               - calculateCombinedLoad Fixture.server5678 weights) * 100
    - inject_Z (Z.of_nat (List.length (@nil MigrationPlan.t))) *
      migrationPenalty weights.
Proof.
  assert (E : selectMostAndLeast Fixture.reports weights =
              (Some Fixture.server1234, Some Fixture.server5678))
    by evaluate.
  split; [exact E |].
  exact (proj2 (proj2 (calculateScore_uses_the_selected_scores
                         Fixture.reports [] weights _ _ E))).
Defined.

(** ** Carrying out a plan in the harness *)

Section Assign.
Variable A : Type.



Lemma assign_map (B : Type) (f : A -> B) (i : nat) (g : A -> A) (l : list A) :
  (forall x, f (g x) = f x) ->
  map f (Harness.assign i g l) = map f l.
Proof.
  intros H. revert i. induction l as [| y l IH]; intros [| i]; cbn;
    try reflexivity.
  - now rewrite H.
  - now rewrite IH.
Qed.

Lemma findObject_some (p : A -> bool) (l : list A) (i : nat) (x : A) :
  Harness.findObject p l = Some (i, x) ->
  nth_error l i = Some x /\ p x = true.
Proof.
  revert i. induction l as [| y l IH]; intros i; cbn; [discriminate |].
  destruct (p y) eqn:E.
  - intros [= <- <-]. now split.
  - destruct (Harness.findObject p l) as [[j z] |]; [| discriminate].
    intros [= <- <-]. cbn. now apply IH.
Qed.


End Assign.

Lemma applyMigrationPlan_keeps (B : Type) (f : ServerReport -> B)
    (servers : list ServerReport) (plan : MigrationPlan.t) :
  (forall k x, f (Harness.removeRange k x) = f x) ->
  (forall k x, f (Harness.pushRange k x) = f x) ->
  (forall k x, f (Harness.addLoad k x) = f x) ->
  (forall k x, f (Harness.subtractLoad k x) = f x) ->
  map f (Harness.applyMigrationPlan servers plan) = map f servers.
Proof.
  intros H1 H2 H3 H4. unfold Harness.applyMigrationPlan.
  destruct (Harness.findObject _ servers) as [[i src] |]; [| reflexivity].
  destruct (Harness.findObject _ servers) as [[j dst] |]; [| reflexivity].
  destruct (find (Harness.planNames plan) (key_ranges src)) as [k |];
    [| reflexivity].
  rewrite !assign_map; auto.
Qed.

(** X11.  Carrying out any list of plans keeps the servers in place:
    the array has the same length, and every server keeps its identifier
    and its two capacities, position by position, whether a plan is carried
    out, matches nothing, or names one server as source and destination. *)
Theorem applying_plans_keeps_identifiers_and_capacities
    (servers : list ServerReport) (plans : list MigrationPlan.t) :
  let after := Harness.applyMigrationPlans servers plans in
  List.length after = List.length servers /\
  map instance_id after = map instance_id servers /\
  map max_cpu_capacity after = map max_cpu_capacity servers /\
  map max_memory_capacity after = map max_memory_capacity servers.
Proof.
  intros after. subst after.
  assert (H : map instance_id (Harness.applyMigrationPlans servers plans)
              = map instance_id servers /\
              map max_cpu_capacity (Harness.applyMigrationPlans servers plans)
              = map max_cpu_capacity servers /\
              map max_memory_capacity
                (Harness.applyMigrationPlans servers plans)
              = map max_memory_capacity servers).
  { unfold Harness.applyMigrationPlans. revert servers.
    induction plans as [| p plans IH]; intros servers; cbn [fold_left].
    - repeat split.
    - destruct (IH (Harness.applyMigrationPlan servers p)) as (Ha & Hb & Hc).
      rewrite Ha, Hb, Hc.
      repeat split; apply applyMigrationPlan_keeps; reflexivity. }
  split; [| exact H].
  destruct H as [Hid _].
  rewrite <- (length_map instance_id), Hid. apply length_map.
Qed.

Lemma strictEquals_true (a b : JS.string) :
  Harness.strictEquals a b = true <-> a = b.
Proof.
  revert b. induction a as [| x a IH]; intros [| y b]; cbn;
    try (split; [discriminate | congruence]); [tauto |].
  rewrite andb_true_iff, N.eqb_eq, IH. split.
  - now intros [-> ->].
  - now intros [= -> ->].
Qed.

Lemma calculateMidKey_length (startKey endKey : JS.string) :
  List.length (calculateMidKey startKey endKey) = 1%nat.
Proof.
  unfold calculateMidKey.
  destruct (JS.charCodeAt0 startKey), (JS.charCodeAt0 endKey); reflexivity.
Qed.

Lemma find_nothing (A : Type) (p : A -> bool) (l : list A) :
  (forall x, In x l -> p x = false) -> find p l = None.
Proof.
  induction l as [| y l IH]; intros H; cbn; [reflexivity |].
  rewrite (H y) by now left. apply IH. intros x Hx. apply H. now right.
Qed.

(** A plan that names no range of any server changes nothing. *)
Lemma applyMigrationPlan_unmatched (servers : list ServerReport)
    (plan : MigrationPlan.t) :
  (forall s r, In s servers -> In r (key_ranges s) ->
     Harness.planNames plan r = false) ->
  Harness.applyMigrationPlan servers plan = servers.
Proof.
  intros H. unfold Harness.applyMigrationPlan.
  destruct (Harness.findObject _ servers) as [[i src] |] eqn:Ei;
    [| reflexivity].
  destruct (Harness.findObject _ servers) as [[j dst] |] in |- *;
    [| reflexivity].
  apply findObject_some in Ei. destruct Ei as [Ei _].
  apply nth_error_In in Ei.
  rewrite find_nothing; [reflexivity |].
  intros r Hr. now apply H with src.
Qed.

(** X12.  When every range key of the fleet has at least two characters,
    the harness carries out neither plan of a split: the one-character
    midpoint is the end of the first plan and the start of the second, and
    no range has it as a boundary, so the array stays as the engine left
    it. *)
Theorem split_plans_are_not_carried_out
    (servers : list ServerReport) (w : Weights)
    (planA planB : MigrationPlan.t) (after : list ServerReport) :
  Forall (fun s =>
            Forall (fun r => (2 <= List.length (start_key r))%nat /\
                             (2 <= List.length (end_key r))%nat)
              (key_ranges s)) servers ->
  slicerLoadBalancer servers w = (Returns [planA; planB], after) ->
  Harness.applyMigrationPlans after [planA; planB] = after.
Proof.
  intros Hkeys Er.
  pose proof (slicerLoadBalancer_path servers w) as P. rewrite Er in P.
  remember (Returns [planA; planB], after) as result eqn:Eres.
  destruct P as [H0 | most least E Ei | most least E Ei Hk
                 | most least k range1 range2 E Ei Ek Es Esp
                 | most least k E Ei Ek Es Ec]; try discriminate Eres.
  injection Eres as <- <- <-.
  destruct (splitKeyRange_inv _ _ _ _ _ _ Esp)
    as (s0 & _ & _ & _ & Ee1 & Es2 & _).
  pose proof (calculateMidKey_length (start_key k) (end_key k)) as Hlen.
  assert (Hranges : forall s r,
             In s (JS.sort (byCombinedLoad w) servers) ->
             In r (key_ranges s) ->
             (2 <= List.length (start_key r))%nat /\
             (2 <= List.length (end_key r))%nat).
  { intros s r Hs Hr.
    apply (Permutation_in _ (Permutation_sym (sort_perm _ servers))) in Hs.
    rewrite Forall_forall in Hkeys. specialize (Hkeys s Hs).
    rewrite Forall_forall in Hkeys. now apply Hkeys. }
  unfold Harness.applyMigrationPlans. cbn [fold_left].
  assert (HA : Harness.applyMigrationPlan
                 (JS.sort (byCombinedLoad w) servers)
                 (createMigrationPlan range1 (instance_id most)
                    (destination_instance range1)) =
               JS.sort (byCombinedLoad w) servers).
  { apply applyMigrationPlan_unmatched. intros s r Hs Hr.
    destruct (Hranges s r Hs Hr) as [_ Hhi].
    unfold Harness.planNames. cbn [createMigrationPlan MigrationPlan.end_key].
    destruct (Harness.strictEquals (end_key r) (end_key range1)) eqn:Eq;
      [| apply andb_false_r].
    apply strictEquals_true in Eq. rewrite Eq, Ee1, Hlen in Hhi. lia. }
  rewrite HA.
  apply applyMigrationPlan_unmatched. intros s r Hs Hr.
  destruct (Hranges s r Hs Hr) as [Hlo _].
  unfold Harness.planNames. cbn [createMigrationPlan MigrationPlan.start_key].
  destruct (Harness.strictEquals (start_key r) (start_key range2)) eqn:Eq;
    [| reflexivity].
  apply strictEquals_true in Eq. rewrite Eq, Es2, Hlen in Hlo. lia.
Qed.

Lemma split_plans_are_not_carried_out_witness :
  Harness.applyMigrationPlans [Fixture.server5678; Fixture.server1234]
    [Fixture.mkPlan "a000" "a" "server-1234" "server-5678";
     Fixture.mkPlan "a" "a999" "server-1234" "server-1234"] =
  [Fixture.server5678; Fixture.server1234].
Proof.
  assert (E : slicerLoadBalancer Fixture.reports weights =
              (Returns
                 [Fixture.mkPlan "a000" "a" "server-1234" "server-5678";
                  Fixture.mkPlan "a" "a999" "server-1234" "server-1234"],
               [Fixture.server5678; Fixture.server1234]))
    by evaluate.
  apply (split_plans_are_not_carried_out Fixture.reports weights _ _ _);
    [| exact E].
  repeat constructor.
Defined.








(** ** Simulated load *)

Section Simulated.
Variable fluctuation : Q -> Q -> Q.

Lemma addRangeToTotals_fold (ranges : list KeyRange) (u : ServerReport) :
  let u' := fold_left Harness.addRangeToTotals ranges u in
  total_storage_utilization u' =
    fold_left (fun acc r => acc + storage_utilization r) ranges
      (total_storage_utilization u) /\
  total_request_processing_load u' =
    fold_left (fun acc r => acc + request_processing_load r) ranges
      (total_request_processing_load u) /\
  total_data_access_frequency u' =
    fold_left (fun acc r => acc + data_access_frequency r) ranges
      (total_data_access_frequency u) /\
  total_memory_usage u' =
    fold_left (fun acc r => acc + memory_usage r) ranges
      (total_memory_usage u) /\
  instance_id u' = instance_id u /\
  max_cpu_capacity u' = max_cpu_capacity u /\
  max_memory_capacity u' = max_memory_capacity u /\
  key_ranges u' = key_ranges u.
Proof.
  revert u. induction ranges as [| r ranges IH]; intros u; cbn [fold_left].
  - repeat split.
  - destruct (IH (Harness.addRangeToTotals u r))
      as (H1 & H2 & H3 & H4 & H5 & H6 & H7 & H8).
    cbv zeta. rewrite H1, H2, H3, H4, H5, H6, H7, H8. repeat split.
Qed.

Lemma addKeyBehavior_keys (time : Q) (r : KeyRange)
    (property : JS.string * Harness.KeyBehavior) :
  start_key (Harness.addKeyBehavior fluctuation time r property) = start_key r /\
  end_key (Harness.addKeyBehavior fluctuation time r property) = end_key r.
Proof.
  unfold Harness.addKeyBehavior. destruct property as [key kb].
  destruct (JS.leb (start_key r) key && JS.leb key (end_key r)); now split.
Qed.

Lemma simulateRange_keys (time : Q) (r : KeyRange) :
  start_key (Harness.simulateRange fluctuation time r) = start_key r /\
  end_key (Harness.simulateRange fluctuation time r) = end_key r.
Proof.
  unfold Harness.simulateRange.
  assert (H : forall l r0,
             start_key (fold_left (Harness.addKeyBehavior fluctuation time)
                          l r0) = start_key r0 /\
             end_key (fold_left (Harness.addKeyBehavior fluctuation time)
                        l r0) = end_key r0).
  { induction l as [| p l IH]; intros r0; cbn [fold_left]; [now split |].
    destruct (IH (Harness.addKeyBehavior fluctuation time r0 p)) as [H1 H2].
    destruct (addKeyBehavior_keys time r0 p) as [H3 H4].
    split; congruence. }
  apply (H Harness.keyBehaviorMap (Harness.resetRange r)).
Qed.

(** A range is simulated from its two keys alone. *)
Lemma simulateRange_from_keys (time : Q) (r r' : KeyRange) :
  start_key r = start_key r' -> end_key r = end_key r' ->
  Harness.simulateRange fluctuation time r =
  Harness.simulateRange fluctuation time r'.
Proof.
  intros Hs He. unfold Harness.simulateRange, Harness.resetRange.
  now rewrite Hs, He.
Qed.

End Simulated.

(** The totals of the returned server are the sums over its ranges. *)
Lemma simulateServerLoad_totals
    (fluctuation : Q -> Q -> Q) (server : ServerReport) (time : Q) :
  let updated := fst (Harness.simulateServerLoad fluctuation server time) in
  total_storage_utilization updated =
    rangeTotal storage_utilization (key_ranges updated) /\
  total_request_processing_load updated =
    rangeTotal request_processing_load (key_ranges updated) /\
  total_data_access_frequency updated =
    rangeTotal data_access_frequency (key_ranges updated) /\
  total_memory_usage updated =
    rangeTotal memory_usage (key_ranges updated).
Proof.
  intros updated. subst updated.
  unfold Harness.simulateServerLoad. cbn [fst].
  match goal with
  | |- context [fold_left Harness.addRangeToTotals ?l ?u] =>
      destruct (addRangeToTotals_fold l u)
        as (H1 & H2 & H3 & H4 & _ & _ & _ & H8)
  end.
  cbv zeta in *. rewrite H1, H2, H3, H4, H8.
  repeat split.
Qed.

(** What the call keeps, and what it leaves in its argument. *)
Lemma simulateServerLoad_frame
    (fluctuation : Q -> Q -> Q) (server : ServerReport) (time : Q) :
  let updated := fst (Harness.simulateServerLoad fluctuation server time) in
  let argument := snd (Harness.simulateServerLoad fluctuation server time) in
  instance_id updated = instance_id server /\
  max_cpu_capacity updated = max_cpu_capacity server /\
  max_memory_capacity updated = max_memory_capacity server /\
  key_ranges updated =
    map (Harness.simulateRange fluctuation time) (key_ranges server) /\
  map start_key (key_ranges updated) = map start_key (key_ranges server) /\
  map end_key (key_ranges updated) = map end_key (key_ranges server) /\
  key_ranges argument = key_ranges updated /\
  total_request_processing_load argument =
    total_request_processing_load server /\
  total_storage_utilization argument = total_storage_utilization server /\
  total_data_access_frequency argument =
    total_data_access_frequency server /\
  total_memory_usage argument = total_memory_usage server /\
  instance_id argument = instance_id server /\
  max_cpu_capacity argument = max_cpu_capacity server /\
  max_memory_capacity argument = max_memory_capacity server.
Proof.
  intros updated argument. subst updated argument.
  unfold Harness.simulateServerLoad. cbn [fst snd].
  match goal with
  | |- context [fold_left Harness.addRangeToTotals ?l ?u] =>
      destruct (addRangeToTotals_fold l u)
        as (_ & _ & _ & _ & H5 & H6 & H7 & H8)
  end.
  cbv zeta in *. rewrite H5, H6, H7, H8.
  cbn [instance_id max_cpu_capacity max_memory_capacity key_ranges
       total_request_processing_load].
  rewrite !map_map.
  repeat split; apply map_ext; intros r; apply simulateRange_keys.
Qed.

(** X14.  Whatever the fluctuation, the server that [simulateServerLoad]
    returns has each of its four totals equal to the sum of that metric
    over its ranges, taken in order from zero; it keeps the identifier,
    the capacities and the keys of the ranges; and the argument is left
    with the new ranges under its four old totals, its identifier and its
    capacities. *)
Theorem simulateServerLoad_totals_are_the_sums_of_the_ranges
    (fluctuation : Q -> Q -> Q) (server : ServerReport) (time : Q) :
  let updated := fst (Harness.simulateServerLoad fluctuation server time) in
  let argument := snd (Harness.simulateServerLoad fluctuation server time) in
  total_storage_utilization updated =
    rangeTotal storage_utilization (key_ranges updated) /\
  total_request_processing_load updated =
    rangeTotal request_processing_load (key_ranges updated) /\
  total_data_access_frequency updated =
    rangeTotal data_access_frequency (key_ranges updated) /\
  total_memory_usage updated =
    rangeTotal memory_usage (key_ranges updated) /\
  instance_id updated = instance_id server /\
  max_cpu_capacity updated = max_cpu_capacity server /\
  max_memory_capacity updated = max_memory_capacity server /\
  map start_key (key_ranges updated) = map start_key (key_ranges server) /\
  map end_key (key_ranges updated) = map end_key (key_ranges server) /\
  key_ranges argument = key_ranges updated /\
  total_storage_utilization argument = total_storage_utilization server /\
  total_request_processing_load argument =
    total_request_processing_load server /\
  total_data_access_frequency argument =
    total_data_access_frequency server /\
  total_memory_usage argument = total_memory_usage server /\
  instance_id argument = instance_id server /\
  max_cpu_capacity argument = max_cpu_capacity server /\
  max_memory_capacity argument = max_memory_capacity server.
Proof.
  intros updated argument.
  destruct (simulateServerLoad_totals fluctuation server time)
    as (H1 & H2 & H3 & H4).
  destruct (simulateServerLoad_frame fluctuation server time)
    as (H5 & H6 & H7 & _ & H8 & H9 & H10 & H11 & H12 & H13 & H14 & H15
        & H16 & H17).
  repeat split; assumption.
Qed.

(** X15.  The simulated server depends on the argument only through its
    identifier, its capacities and the keys of its ranges: metrics and
    totals carried in are discarded, so simulating the result again at the
    same time changes nothing. *)
Theorem simulateServerLoad_discards_previous_load
    (fluctuation : Q -> Q -> Q) (server server' : ServerReport) (time : Q) :
  (instance_id server = instance_id server' ->
   max_cpu_capacity server = max_cpu_capacity server' ->
   max_memory_capacity server = max_memory_capacity server' ->
   map (fun r => (start_key r, end_key r)) (key_ranges server) =
   map (fun r => (start_key r, end_key r)) (key_ranges server') ->
   fst (Harness.simulateServerLoad fluctuation server time) =
   fst (Harness.simulateServerLoad fluctuation server' time)) /\
  fst (Harness.simulateServerLoad fluctuation
         (fst (Harness.simulateServerLoad fluctuation server time)) time) =
  fst (Harness.simulateServerLoad fluctuation server time).
Proof.
  assert (Hgen : forall s s',
             instance_id s = instance_id s' ->
             max_cpu_capacity s = max_cpu_capacity s' ->
             max_memory_capacity s = max_memory_capacity s' ->
             map (fun r => (start_key r, end_key r)) (key_ranges s) =
             map (fun r => (start_key r, end_key r)) (key_ranges s') ->
             fst (Harness.simulateServerLoad fluctuation s time) =
             fst (Harness.simulateServerLoad fluctuation s' time)).
  { intros s s' Hid Hc Hm Hk. unfold Harness.simulateServerLoad. cbn [fst].
    assert (Hr : map (Harness.simulateRange fluctuation time) (key_ranges s) =
                 map (Harness.simulateRange fluctuation time) (key_ranges s')).
    { revert Hk. generalize (key_ranges s') as l'.
      induction (key_ranges s) as [| r l IH]; intros [| r' l']; cbn;
        try discriminate; [reflexivity |].
      intros [= Hs He Hl]. f_equal; [| now apply IH].
      now apply simulateRange_from_keys. }
    now rewrite Hr, Hid, Hc, Hm. }
  split; [apply Hgen |].
  destruct (simulateServerLoad_frame fluctuation server time)
    as (Hid & Hc & Hm & _ & Hs & He & _).
  cbv zeta in *. apply Hgen; try assumption.
  set (l := key_ranges (fst (Harness.simulateServerLoad fluctuation server time))) in *.
  clearbody l. revert Hs He. generalize (key_ranges server) as l'.
  induction l as [| r l IH]; intros [| r' l']; cbn; try discriminate;
    [reflexivity |].
  intros [= Hs1 Hs2] [= He1 He2]. f_equal; [congruence | now apply IH].
Qed.

Lemma simulateServerLoad_discards_witness :
  total_request_processing_load Fixture.server1234 = 4450 /\
  total_request_processing_load Scenario.drained1234 = 0 /\
  Fixture.server1234 <> Scenario.drained1234 /\
  fst (Harness.simulateServerLoad (fun _ _ => 0) Fixture.server1234 0) =
  fst (Harness.simulateServerLoad (fun _ _ => 0) Scenario.drained1234 0).
Proof.
  split; [reflexivity | split; [reflexivity | split]].
  - intros H. apply (f_equal total_request_processing_load) in H.
    discriminate H.
  - apply (simulateServerLoad_discards_previous_load
             (fun _ _ => 0) Fixture.server1234 Scenario.drained1234 0);
      reflexivity.
Defined.

(** ** The engine on simulated fleets *)

(** Every key behavior of the harness fluctuates within its baseline. *)
Lemma keyBehaviorMap_steady :
  Forall (fun property => steady (snd property)) Harness.keyBehaviorMap.
Proof.
  repeat constructor; vm_compute; discriminate.
Qed.

Section SimulatedFleet.
Variable fluctuation : Q -> Q -> Q.
Hypothesis bounded : forall time period, -1 <= fluctuation time period <= 1.

Lemma addKeyBehavior_nonnegative (time : Q) (r : KeyRange)
    (property : JS.string * Harness.KeyBehavior) :
  steady (snd property) -> nonnegative r ->
  nonnegative (Harness.addKeyBehavior fluctuation time r property).
Proof.
  destruct property as [key kb]. cbn [snd].
  intros (Ha & Hs & Hm & Hp) (Ra & Rs & Rp & Rm).
  unfold Harness.addKeyBehavior.
  destruct (JS.leb (start_key r) key && JS.leb key (end_key r));
    [| repeat split; assumption].
  pose proof (bounded time (Harness.fluctuationPeriod kb)) as Hf.
  set (f := fluctuation time (Harness.fluctuationPeriod kb)) in *.
  assert (Hacc : 0 <= Harness.baseAccessFrequency kb
                      + Harness.accessFluctuation kb * f) by nra.
  unfold nonnegative. cbn. repeat split; nra.
Qed.

Lemma simulateRange_nonnegative (time : Q) (r : KeyRange) :
  nonnegative (Harness.simulateRange fluctuation time r).
Proof.
  unfold Harness.simulateRange.
  assert (H0 : nonnegative (Harness.resetRange r))
    by (repeat split; apply Qle_refl).
  revert H0. generalize (Harness.resetRange r) as r0.
  pose proof keyBehaviorMap_steady as Hall.
  induction Harness.keyBehaviorMap as [| p l IH]; intros r0 H0;
    cbn [fold_left]; [exact H0 |].
  inversion Hall; subst. apply IH; [assumption |].
  now apply addKeyBehavior_nonnegative.
Qed.

Lemma sum_nonnegative (metric : KeyRange -> Q) (l : list KeyRange) (a : Q) :
  0 <= a -> (forall r, In r l -> 0 <= metric r) ->
  0 <= fold_left (fun acc r => acc + metric r) l a.
Proof.
  revert a. induction l as [| r l IH]; intros a Ha H; cbn [fold_left];
    [exact Ha |].
  apply IH.
  - pose proof (H r (or_introl eq_refl)). lra.
  - intros r' Hr'. apply H. now right.
Qed.

(** A simulated server satisfies the data-model invariant. *)
Lemma simulated_wf_server (server : ServerReport) (time : Q) :
  wf_server (fst (Harness.simulateServerLoad fluctuation server time)).
Proof.
  destruct (simulateServerLoad_totals fluctuation server time)
    as (H1 & H2 & H3 & H4).
  destruct (simulateServerLoad_frame fluctuation server time)
    as (_ & _ & _ & Hk & _).
  cbv zeta in *. unfold wf_server. rewrite H1, H2, H3, H4, Hk.
  assert (Hr : forall r,
             In r (map (Harness.simulateRange fluctuation time)
                     (key_ranges server)) ->
             nonnegative r).
  { intros r Hr. apply in_map_iff in Hr. destruct Hr as (r0 & <- & _).
    apply simulateRange_nonnegative. }
  unfold rangeTotal.
  repeat split; apply sum_nonnegative; try apply Qle_refl;
    intros r Hin; apply (Hr r Hin).
Qed.

End SimulatedFleet.

(** The engine returns on a well-formed fleet whose servers without
    ranges have a zero score. *)
Lemma returns_when_rangeless_servers_weigh_nothing
    (fleet : list ServerReport) (w : Weights) :
  wf_weights w -> Forall wf_server fleet ->
  (forall s, In s fleet -> key_ranges s = [] ->
     calculateCombinedLoad s w == 0) ->
  exists plans after, slicerLoadBalancer fleet w = (Returns plans, after).
Proof.
  intros Hw Hwf Hzero.
  destruct (slicerLoadBalancer fleet w) as [[plans |] after] eqn:Er;
    [eauto |].
  exfalso.
  assert (Ht : fst (slicerLoadBalancer fleet w) = TypeError)
    by now rewrite Er.
  apply throws_iff in Ht. destruct Ht as (most & least & E & Ei & Ek).
  destruct (selectMostAndLeast_sound _ _ E) as [Hm Hn].
  apply first_max_In in Hm. apply first_min_In in Hn.
  pose proof (Hzero most Hm Ek) as H0.
  assert (Hl : 0 <= calculateCombinedLoad least w).
  { apply calculateCombinedLoad_nonneg; [exact Hw |].
    rewrite Forall_forall in Hwf. now apply Hwf. }
  apply imbalanced_true in Ei. lra.
Qed.

(** A simulated server without ranges has a zero score. *)
Lemma simulated_rangeless_weighs_nothing
    (fluctuation : Q -> Q -> Q) (server : ServerReport) (time : Q)
    (w : Weights) :
  key_ranges (fst (Harness.simulateServerLoad fluctuation server time)) = [] ->
  calculateCombinedLoad
    (fst (Harness.simulateServerLoad fluctuation server time)) w == 0.
Proof.
  intros Ek.
  destruct (simulateServerLoad_totals fluctuation server time)
    as (H1 & H2 & H3 & H4).
  cbv zeta in *. unfold calculateCombinedLoad.
  rewrite H1, H2, H3, H4, Ek. unfold rangeTotal. cbn [fold_left]. ring.
Qed.

(** X16.  On a fleet that comes out of [simulateServerLoad], with a
    fluctuation factor between -1 and 1 and non-negative weights, the
    engine never throws: a server left without ranges has zero totals, so
    it is not above the threshold over any other server. *)
Theorem engine_returns_on_simulated_fleets
    (fluctuation : Q -> Q -> Q) (servers : list ServerReport) (time : Q)
    (w : Weights) :
  (forall t period, -1 <= fluctuation t period <= 1) ->
  wf_weights w ->
  exists plans after,
    slicerLoadBalancer
      (map (fun s => fst (Harness.simulateServerLoad fluctuation s time))
         servers) w = (Returns plans, after).
Proof.
  intros Hb Hw.
  apply returns_when_rangeless_servers_weigh_nothing; [exact Hw | |].
  - apply Forall_forall. intros s Hs. apply in_map_iff in Hs.
    destruct Hs as (s0 & <- & _). now apply simulated_wf_server.
  - intros s Hs Ek. apply in_map_iff in Hs. destruct Hs as (s0 & <- & _).
    now apply simulated_rangeless_weighs_nothing.
Qed.

Lemma engine_returns_on_simulated_fleets_witness :
  exists plans after,
    slicerLoadBalancer
      (map (fun s => fst (Harness.simulateServerLoad (fun _ _ => 0) s 0))
         Fixture.reports) weights = (Returns plans, after).
Proof.
  apply (engine_returns_on_simulated_fleets (fun _ _ => 0) Fixture.reports 0
           weights).
  - intros t period. split; discriminate.
  - exact wf_weights_default.
Defined.

(** X17.  On a well-formed fleet whose totals are the sums of the metrics
    of its ranges the engine never throws. *)
Theorem engine_returns_on_consistent_fleets
    (servers : list ServerReport) (w : Weights) :
  wf_weights w -> Forall wf_server servers -> Forall consistent servers ->
  exists plans after, slicerLoadBalancer servers w = (Returns plans, after).
Proof.
  intros Hw Hwf Hc.
  apply returns_when_rangeless_servers_weigh_nothing; try assumption.
  intros s Hs Ek. rewrite Forall_forall in Hc.
  destruct (Hc s Hs) as (H1 & H2 & H3 & H4).
  unfold calculateCombinedLoad. rewrite H1, H2, H3, H4, Ek.
  unfold rangeTotal. cbn [fold_left]. ring.
Qed.

Lemma engine_returns_on_consistent_fleets_witness :
  wf_weights weights /\ Forall wf_server Fixture.reports /\
  Forall consistent Fixture.reports /\
  exists plans after,
    slicerLoadBalancer Fixture.reports weights = (Returns plans, after).
Proof.
  assert (Hc : Forall consistent Fixture.reports)
    by (repeat constructor; vm_compute; reflexivity).
  split; [exact wf_weights_default | split; [exact wf_server_fixture |]].
  split; [exact Hc |].
  exact (engine_returns_on_consistent_fleets Fixture.reports weights
           wf_weights_default wf_server_fixture Hc).
Defined.

(** ** A whole simulated run *)

Lemma returned_shape (servers : list ServerReport) (w : Weights)
    (plans : list MigrationPlan.t) (after : list ServerReport) :
  slicerLoadBalancer servers w = (Returns plans, after) ->
  (List.length plans <= 2)%nat /\ List.length after = List.length servers.
Proof.
  intros Er.
  pose proof (slicerLoadBalancer_path servers w) as P. rewrite Er in P.
  remember (Returns plans, after) as result eqn:Eres.
  destruct P; try discriminate Eres; injection Eres as <- <-; cbn;
    split; try lia; try reflexivity.
  apply sort_length.
Qed.

Lemma applyMigrationPlans_length (plans : list MigrationPlan.t)
    (servers : list ServerReport) :
  List.length (Harness.applyMigrationPlans servers plans) = List.length servers.
Proof.
  unfold Harness.applyMigrationPlans. revert servers.
  induction plans as [| p plans IH]; intros servers; cbn [fold_left];
    [reflexivity |].
  rewrite IH.
  rewrite <- (length_map instance_id), <- (length_map instance_id servers).
  f_equal. apply applyMigrationPlan_keeps; reflexivity.
Qed.

Section RunFacts.
Variable fluctuation : Q -> Q -> Q.
Variable w : Weights.
Hypothesis bounded : forall time period, -1 <= fluctuation time period <= 1.
Hypothesis weights_wf : wf_weights w.

Lemma timeStep_returns (servers : list ServerReport)
    (plans : list MigrationPlan.t) (time : Q) :
  exists servers' plans',
    Simulation.timeStep fluctuation w (Returns (servers, plans)) time =
      Returns (servers', plans') /\
    List.length servers' = List.length servers /\
    (List.length plans' <= List.length plans + 2)%nat.
Proof.
  unfold Simulation.timeStep.
  set (fleet := map _ servers).
  assert (Hr : exists new after,
             slicerLoadBalancer fleet w = (Returns new, after)).
  { apply returns_when_rangeless_servers_weigh_nothing;
      [exact weights_wf | |].
    - apply Forall_forall. intros s Hs. apply in_map_iff in Hs.
      destruct Hs as (s0 & <- & _). now apply simulated_wf_server.
    - intros s Hs Ek. apply in_map_iff in Hs. destruct Hs as (s0 & <- & _).
      now apply simulated_rangeless_weighs_nothing. }
  destruct Hr as (new & after & Er). rewrite Er.
  destruct (returned_shape fleet w new after Er) as [Hn Ha].
  eexists _, _. split; [reflexivity | split].
  - rewrite applyMigrationPlans_length, Ha. unfold fleet.
    apply length_map.
  - rewrite length_app. lia.
Qed.

Lemma run_returns (times : list Q) (servers : list ServerReport)
    (plans : list MigrationPlan.t) :
  exists servers' plans',
    fold_left (Simulation.timeStep fluctuation w) times
      (Returns (servers, plans)) = Returns (servers', plans') /\
    List.length servers' = List.length servers /\
    (List.length plans' <= List.length plans + 2 * List.length times)%nat.
Proof.
  revert servers plans.
  induction times as [| t times IH]; intros servers plans; cbn [fold_left].
  - exists servers, plans. cbn. repeat split; lia.
  - destruct (timeStep_returns servers plans t) as (s1 & p1 & E1 & Hs1 & Hp1).
    rewrite E1.
    destruct (IH s1 p1) as (s2 & p2 & E2 & Hs2 & Hp2).
    exists s2, p2. split; [exact E2 | split; [congruence |]].
    cbn [List.length]. lia.
Qed.

End RunFacts.

(** X18.  With a fluctuation factor between -1 and 1 and non-negative
    weights, a simulated run of twenty steps never throws: the loop ends
    with two servers and at most forty collected plans, and the run
    returns the score of that final state. *)
Theorem runSingleSimulation_returns_with_at_most_forty_plans
    (fluctuation : Q -> Q -> Q) (w : Weights) :
  (forall time period, -1 <= fluctuation time period <= 1) ->
  wf_weights w ->
  exists servers plans,
    fold_left (Simulation.timeStep fluctuation w) Simulation.times
      (Returns (Simulation.initialServers, [])) = Returns (servers, plans) /\
    List.length servers = 2%nat /\
    (List.length plans <= 40)%nat /\
    Simulation.runSingleSimulation fluctuation w =
      Returns (Harness.calculateScore servers plans w).
Proof.
  intros Hb Hw.
  destruct (run_returns fluctuation w Hb Hw Simulation.times
              Simulation.initialServers [])
    as (servers & plans & E & Hs & Hn).
  exists servers, plans.
  split; [exact E | split; [exact Hs | split]].
  - unfold Simulation.times in Hn. rewrite length_map, length_seq in Hn.
    cbn in Hn. lia.
  - unfold Simulation.runSingleSimulation. now rewrite E.
Qed.

Lemma runSingleSimulation_witness :
  exists servers plans,
    fold_left (Simulation.timeStep (fun _ _ => 0) weights) Simulation.times
      (Returns (Simulation.initialServers, [])) = Returns (servers, plans) /\
    List.length servers = 2%nat /\
    (List.length plans <= 40)%nat /\
    Simulation.runSingleSimulation (fun _ _ => 0) weights =
      Returns (Harness.calculateScore servers plans weights).
Proof.
  apply (runSingleSimulation_returns_with_at_most_forty_plans
           (fun _ _ => 0) weights).
  - intros t period. split; discriminate.
  - exact wf_weights_default.
Defined.

(** ** The midpoint and the halves *)

(** X19.  The midpoint key always has exactly one code unit and does not
    depend on the order of the two keys; for keys of 16-bit code units
    whose first units are [a <= b] that unit lies between [a] and [b]. *)
Theorem midpoint_is_one_unit_between_the_first_units
    (startKey endKey : JS.string) :
  List.length (calculateMidKey startKey endKey) = 1%nat /\
  calculateMidKey startKey endKey = calculateMidKey endKey startKey /\
  (forall a b,
     JS.wf_string startKey -> JS.wf_string endKey ->
     JS.charCodeAt0 startKey = Some a -> JS.charCodeAt0 endKey = Some b ->
     (a <= b)%N ->
     exists c, calculateMidKey startKey endKey = [c] /\ (a <= c <= b)%N).
Proof.
  split; [apply calculateMidKey_length | split].
  - unfold calculateMidKey.
    destruct (JS.charCodeAt0 startKey) as [a |],
             (JS.charCodeAt0 endKey) as [b |]; try reflexivity.
    now rewrite N.add_comm.
  - intros a b Hs He Ea Eb Hab.
    exists ((a + b) / 2)%N. split.
    + now apply calculateMidKey_first_chars.
    + split.
      * apply N.div_le_lower_bound; lia.
      * apply N.Div0.div_le_upper_bound. lia.
Qed.

Lemma midpoint_witness :
  exists c,
    calculateMidKey (JS.str "a000") (JS.str "c999") = [c] /\
    (97 <= c <= 99)%N.
Proof.
  destruct (midpoint_is_one_unit_between_the_first_units
              (JS.str "a000") (JS.str "c999")) as (_ & _ & H).
  apply (H 97%N 99%N).
  - repeat constructor.
  - repeat constructor.
  - reflexivity.
  - reflexivity.
  - discriminate.
Defined.

(** X20.  A split conserves load: for each of the four metrics the two
    halves add up to the original range, and so do their scores under any
    weights. *)
Theorem split_conserves_the_load
    (k : KeyRange) (servers : list ServerReport) (w : Weights)
    (range1 range2 : RoutedKeyRange) (after : list ServerReport) :
  splitKeyRange k servers w = (Returns (range1, range2), after) ->
  data_access_frequency range1 + data_access_frequency range2 ==
    data_access_frequency k /\
  storage_utilization range1 + storage_utilization range2 ==
    storage_utilization k /\
  request_processing_load range1 + request_processing_load range2 ==
    request_processing_load k /\
  memory_usage range1 + memory_usage range2 == memory_usage k /\
  forall w',
    calculateKeyRangeLoad range1 w' + calculateKeyRangeLoad range2 w' ==
    calculateKeyRangeLoad k w'.
Proof.
  unfold splitKeyRange.
  destruct (nth_error (JS.sort (byCombinedLoad w) servers) 0) as [s0 |];
    [| discriminate].
  intros [= <- <- <-]. cbn.
  repeat split; try (field; discriminate).
  intros w'. unfold calculateKeyRangeLoad. cbn. field.
Qed.

Lemma split_conserves_the_load_witness :
  exists (range1 range2 : RoutedKeyRange),
    request_processing_load range1 + request_processing_load range2 ==
    request_processing_load Fixture.hotRange.
Proof.
  destruct (splitKeyRange_returns Fixture.hotRange weights
              (servers := Fixture.reports)) as (range1 & range2 & Er);
    [discriminate |].
  exists range1, range2.
  apply (split_conserves_the_load _ _ _ _ _ _ Er).
Defined.
